(** * go-debug: the TI-COFF decoder and the ELF/COFF dispatcher

    A shallow embedding of [coff/coff.go] (package [coff]) and of the
    dispatcher (package [debug]), with the properties of the decoder stated
    and proved over it.

    Conventions.
    - Go's fixed-width integers are [Z] values kept in range by the
      conversion functions [uint16], [uint32], [int16]; bytes are [byte].
    - A Go [string] is a [string]; a [[]byte] is a [list byte].
    - An [io.ReaderAt] is an immutable in-memory byte source.
    - A Go function returning [(v, err)] returns a pair whose second
      component is an [option error] ([None] is [nil]); a pointer result is
      an [option].  A run-time panic is the outcome [Panics]. *)

From Stdlib Require Import ZArith List String Ascii Lia DecimalString.
From Stdlib.Strings Require Import Byte.
From stdpp Require Import gmap list strings.

(** ** Machine integers *)

Definition uint8 (b : byte) : Z := Z.of_N (Byte.to_N b).
Definition uint16 (x : Z) : Z := (x mod 2 ^ 16)%Z.
Definition uint32 (x : Z) : Z := (x mod 2 ^ 32)%Z.
Definition uint64 (x : Z) : Z := (x mod 2 ^ 64)%Z.

(** [int16(x)] for a 16-bit pattern [x]: two's complement. *)
Definition int16 (x : Z) : Z :=
  let u := uint16 x in if (u <? 2 ^ 15)%Z then u else (u - 2 ^ 16)%Z.

Definition NUL : byte := x00.

(** ** The [error] interface

    The dynamic types of the error values that flow through the two
    packages: the sentinels of [io], the sentinel of [coff], errors made by
    [errors.New] / [fmt.Errorf] (a message), and [debug.ErrorSlice]. *)

#[warnings="-register-all"]
Inductive error : Type :=
| EOF
| ErrUnexpectedEOF
| ErrInvalidTargetID
| errorString (msg : string)
| ErrorSlice (es : list error).

(** [fmt.Sprintf("%d", n)] *)
Definition Sprintf_d (n : nat) : string :=
  NilEmpty.string_of_uint (Nat.to_uint n).

(** One digit of [%X]. *)
Definition hex_digit (d : Z) : ascii :=
  nth (Z.to_nat d) (list_ascii_of_string "0123456789ABCDEF") "0"%char.

(** [fmt.Sprintf("%04X", z)] for a [uint16] value [z]: four upper-case
    hexadecimal digits. *)
Definition Sprintf_04X (z : Z) : string :=
  string_of_list_ascii
    [hex_digit (z / 4096 mod 16); hex_digit (z / 256 mod 16);
     hex_digit (z / 16 mod 16); hex_digit (z mod 16)]%Z.

(** The [Error() string] method of each dynamic type. *)
Definition Error (e : error) : string :=
  match e with
  | EOF => "EOF"
  | ErrUnexpectedEOF => "unexpected EOF"
  | ErrInvalidTargetID => "invalid target ID"
  | errorString msg => msg
  | ErrorSlice es => Sprintf_d (length es) +:+ " errors returned"
  end.

(** [fmt.Errorf(prefix + "%v", err)]: a fresh error whose message is the
    prefix followed by [err.Error()]. *)
Definition Errorf (prefix : string) (err : error) : error :=
  errorString (prefix +:+ Error err).

(** Outcome of running a Go function: it returns, it panics, or the
    evaluation budget of a loop ran out (shown never to happen). *)
Inductive exec (A : Type) : Type :=
| Returns (a : A)
| Panics (msg : string)
| OutOfFuel.
Arguments Returns {A} a.
Arguments Panics {A} msg.
Arguments OutOfFuel {A}.

(** ** Package [io] *)

Module io.

Definition ReaderAt := list byte.

Definition maxint64 : Z := (2 ^ 63 - 1)%Z.

(** [io.SectionReader]: a window [base, limit) over [r] with a cursor. *)
Record SectionReader := mkSectionReader {
  r : ReaderAt;
  base : Z;
  off : Z;
  limit : Z
}.

Definition NewSectionReader (r : ReaderAt) (off n : Z) : SectionReader :=
  let remaining := if (off <=? maxint64 - n)%Z then (n + off)%Z else maxint64 in
  mkSectionReader r off off remaining.

(** [s.Seek(offset, io.SeekStart)]; the decoder discards the results. *)
Definition Seek (s : SectionReader) (offset : Z) : SectionReader :=
  let offset := (offset + base s)%Z in
  if (offset <? base s)%Z then s
  else mkSectionReader (r s) (base s) offset (limit s).

(** The bytes a sequence of [Read]s can still deliver: those of the
    source from the cursor up to the limit. *)
Definition avail (s : SectionReader) : list byte :=
  if (Z.of_nat (length (r s)) <=? off s)%Z then []
  else
    let d := drop (Z.to_nat (off s)) (r s) in
    if (Z.of_nat (length d) <=? limit s - off s)%Z then d
    else take (Z.to_nat (limit s - off s)) d.

Definition advance (s : SectionReader) (n : nat) : SectionReader :=
  mkSectionReader (r s) (base s) (off s + Z.of_nat n)%Z (limit s).

(** [io.ReadFull(s, buf)] with [len(buf) = n]: all [n] bytes and [nil];
    no byte at all and [io.EOF]; or fewer than [n] and
    [io.ErrUnexpectedEOF].  The cursor moves past what was read. *)
Definition ReadFull (s : SectionReader) (n : nat)
  : SectionReader * list byte * option error :=
  let a := avail s in
  if decide (n ≤ length a) then (advance s n, take n a, None)
  else match a with
       | [] => (s, [], Some EOF)
       | _ => (advance s (length a), a, Some ErrUnexpectedEOF)
       end.

(** [ioutil.ReadAll(s)]: everything up to end of input; end of input is
    not an error. *)
Definition ReadAll (s : SectionReader)
  : SectionReader * list byte * option error :=
  let a := avail s in (advance s (length a), a, None).

(** A [SectionReader] used as an [io.ReaderAt] ([s.ReadAt]): offset 0 is
    [base], and nothing is delivered at or past [limit]. *)
Definition as_ReaderAt (s : SectionReader) : ReaderAt :=
  avail (mkSectionReader (r s) (base s) (base s) (limit s)).

End io.

(** ** Package [encoding/binary] *)

Module binary.

(** The fixed-size field types that occur in the decoder's structs. *)
Inductive kind : Type :=
| Uint8 | Uint16 | Int16 | Uint32
| ByteArray (n : nat).

(** A struct field: its kind, and whether it is a blank ([_]) field. *)
Record field := mkField { blank : bool; fkind : kind }.

Definition F (k : kind) : field := mkField false k.
Definition Blank (k : kind) : field := mkField true k.

Definition sizeof (k : kind) : nat :=
  match k with
  | Uint8 => 1
  | Uint16 | Int16 => 2
  | Uint32 => 4
  | ByteArray n => n
  end.

(** [binary.Size(v)] for a struct with the given fields. *)
Fixpoint Size (fields : list field) : nat :=
  match fields with
  | [] => 0
  | f :: fs => sizeof (fkind f) + Size fs
  end.

Definition byte_at (b : list byte) (i : nat) : Z :=
  uint8 (nth i b NUL).

(** [binary.LittleEndian.Uint16] and [Uint32]. *)
Definition LittleEndian_Uint16 (b : list byte) : Z :=
  Z.lor (byte_at b 0) (Z.shiftl (byte_at b 1) 8).

Definition LittleEndian_Uint32 (b : list byte) : Z :=
  Z.lor (Z.lor (Z.lor (byte_at b 0) (Z.shiftl (byte_at b 1) 8))
               (Z.shiftl (byte_at b 2) 16))
        (Z.shiftl (byte_at b 3) 24).

(** Values of one field, read at the front of the buffer. *)
Definition decode_kind (k : kind) (b : list byte) : list Z :=
  match k with
  | Uint8 => [byte_at b 0]
  | Uint16 => [LittleEndian_Uint16 b]
  | Int16 => [int16 (LittleEndian_Uint16 b)]
  | Uint32 => [LittleEndian_Uint32 b]
  | ByteArray n => uint8 <$> take n b
  end.

(** The decoder walks the fields in declaration order; a blank field is
    skipped over, its bytes discarded. *)
Fixpoint decode (fields : list field) (b : list byte) : list Z :=
  match fields with
  | [] => []
  | f :: fs =>
      (if blank f then [] else decode_kind (fkind f) b)
        ++ decode fs (drop (sizeof (fkind f)) b)
  end.

(** [binary.Read(s, binary.LittleEndian, &v)]: read [Size] bytes in
    full, then decode them; a short read is the error of [ReadFull]. *)
Definition Read (s : io.SectionReader) (fields : list field)
  : io.SectionReader * list Z * option error :=
  let '(s', buf, err) := io.ReadFull s (Size fields) in
  match err with
  | Some e => (s', [], Some e)
  | None => (s', decode fields buf, None)
  end.

End binary.

(** ** Package [strings] and [bufio], as far as the decoder uses them *)

(** [trimRightByte(s, c)]: drop bytes equal to [c] from the right end. *)
Fixpoint trimRightByte (s : list byte) (c : byte) : list byte :=
  match s with
  | [] => []
  | b :: s' =>
      match trimRightByte s' c with
      | [] => if Byte.eqb b c then [] else [b]
      | t => b :: t
      end
  end.

(** [strings.TrimRight(s, cutset)] for a cutset of one ASCII byte. *)
Definition TrimRight (s : string) (c : byte) : string :=
  string_of_list_byte (trimRightByte (list_byte_of_string s) c).

(** [bufio.NewReader(bytes.NewReader(b)).ReadBytes(delim)]: the bytes up to
    and including the first [delim]; without one, all bytes and [io.EOF]. *)
Fixpoint ReadBytes (b : list byte) (delim : byte) : list byte * option error :=
  match b with
  | [] => ([], Some EOF)
  | x :: b' =>
      if Byte.eqb x delim then ([x], None)
      else let '(bs, err) := ReadBytes b' delim in (x :: bs, err)
  end.

(** ** Package [os], as far as [Open] uses it *)

Module os.

Record File := mkFile { path : string; contents : io.ReaderAt }.

End os.

(** ** Package [coff] *)

Module coff.

(** *** Data model *)

(** [type FileHeader struct]; [TargetID] is a [uint16]. *)
Record FileHeader := mkFileHeader {
  Version : Z;
  NumSections : Z;
  Timestamp : Z;
  SymbolTableStartAddress : Z;
  NumSymbolTableEntries : Z;
  OptionalFileHeaderSize : Z;
  Flags : Z;
  TargetID : Z
}.

Definition FileHeader_fields : list binary.field :=
  [ binary.F binary.Uint16;    (* Version *)
    binary.F binary.Uint16;    (* NumSections *)
    binary.F binary.Uint32;    (* Timestamp *)
    binary.F binary.Uint32;    (* SymbolTableStartAddress *)
    binary.F binary.Uint32;    (* NumSymbolTableEntries *)
    binary.F binary.Uint16;    (* OptionalFileHeaderSize *)
    binary.F binary.Uint16;    (* Flags *)
    binary.F binary.Uint16 ].  (* TargetID *)

Definition FileHeader_of (v : list Z) : FileHeader :=
  mkFileHeader (nth 0 v 0%Z) (nth 1 v 0%Z) (nth 2 v 0%Z) (nth 3 v 0%Z)
               (nth 4 v 0%Z) (nth 5 v 0%Z) (nth 6 v 0%Z) (nth 7 v 0%Z).

(** The zero value of [FileHeader]. *)
Definition FileHeader_zero : FileHeader :=
  mkFileHeader 0 0 0 0 0 0 0 0.

(** [type OptionalFileHeader struct] *)
Record OptionalFileHeader := mkOptionalFileHeader {
  MagicNumber : Z;
  OptVersion : Z;
  ExecuteableCodeSize : Z;
  InitializedDataSize : Z;
  UninitializedDataSize : Z;
  EntryPoint : Z;
  BeginAddressExecutableCode : Z;
  BeginAddressInitializedData : Z
}.

Definition OptionalFileHeader_fields : list binary.field :=
  [ binary.F binary.Uint16;    (* MagicNumber *)
    binary.F binary.Uint16;    (* Version *)
    binary.F binary.Uint32;    (* ExecuteableCodeSize *)
    binary.F binary.Uint32;    (* InitializedDataSize *)
    binary.F binary.Uint32;    (* UninitializedDataSize *)
    binary.F binary.Uint32;    (* EntryPoint *)
    binary.F binary.Uint32;    (* BeginAddressExecutableCode *)
    binary.F binary.Uint32 ].  (* BeginAddressInitializedData *)

Definition OptionalFileHeader_of (v : list Z) : OptionalFileHeader :=
  mkOptionalFileHeader (nth 0 v 0%Z) (nth 1 v 0%Z) (nth 2 v 0%Z) (nth 3 v 0%Z)
                       (nth 4 v 0%Z) (nth 5 v 0%Z) (nth 6 v 0%Z) (nth 7 v 0%Z).

(** [type sectionHeader struct]: the on-disk record after the name. *)
Definition sectionHeader_fields : list binary.field :=
  [ binary.F binary.Uint32;      (* PhysicalAddress *)
    binary.F binary.Uint32;      (* VirtualAddress *)
    binary.F binary.Uint32;      (* Size *)
    binary.F binary.Uint32;      (* RawDataAddress *)
    binary.F binary.Uint32;      (* RelocationEntriesAddress *)
    binary.Blank binary.Uint32;
    binary.F binary.Uint32;      (* NumRelocationEntries *)
    binary.Blank binary.Uint32;
    binary.F binary.Uint32;      (* Flags *)
    binary.Blank binary.Uint16;
    binary.F binary.Uint16 ].    (* MemoryPageNumber *)

(** [type SectionHeader struct] *)
Record SectionHeader := mkSectionHeader {
  Name : string;
  PhysicalAddress : Z;
  VirtualAddress : Z;
  Size : Z;
  RawDataAddress : Z;
  RelocationEntriesAddress : Z;
  NumRelocationEntries : Z;
  SectionFlags : Z;
  MemoryPageNumber : Z
}.

(** [type Section struct]; the embedded [io.ReaderAt] is never set. *)
Record Section := mkSection {
  Header : SectionHeader;
  sr : io.SectionReader
}.

(** [type symbol struct]: the on-disk record after the name. *)
Definition symbol_fields : list binary.field :=
  [ binary.F binary.Uint32;      (* Value *)
    binary.F binary.Int16;       (* SectionNumber *)
    binary.Blank binary.Uint16;
    binary.F binary.Uint8;       (* StorageClass *)
    binary.F binary.Uint8 ].     (* NumAuxEntries *)

(** [type AuxiliaryEntry struct] *)
Record AuxiliaryEntry := mkAuxiliaryEntry {
  AuxSize : Z;
  AuxNumRelocationEntries : Z;
  NumOfLineNumberEntries : Z
}.

Definition AuxiliaryEntry_fields : list binary.field :=
  [ binary.F binary.Uint32;      (* Size *)
    binary.F binary.Uint16;      (* NumRelocationEntries *)
    binary.F binary.Uint16;      (* NumOfLineNumberEntries *)
    binary.Blank (binary.ByteArray 10) ].

Definition AuxiliaryEntry_of (v : list Z) : AuxiliaryEntry :=
  mkAuxiliaryEntry (nth 0 v 0%Z) (nth 1 v 0%Z) (nth 2 v 0%Z).

(** [type Symbol struct] *)
Record Symbol := mkSymbol {
  SymName : string;
  Value : Z;
  SectionNumber : Z;
  StorageClass : Z;
  NumAuxEntries : Z;
  AuxEntry : option AuxiliaryEntry
}.

(** [type File struct].  [Sections] is a slice of pointers: an element is
    [None] until the section loop has stored it. *)
Record File := mkFile {
  Hdr : FileHeader;
  OptHdr : option OptionalFileHeader;
  Sections : list (option Section);
  symbols : list Symbol
}.

(** [new(File)] *)
Definition File_zero : File := mkFile FileHeader_zero None [] [].

Definition set_Hdr (f : File) (h : FileHeader) : File :=
  mkFile h (OptHdr f) (Sections f) (symbols f).
Definition set_OptHdr (f : File) (o : option OptionalFileHeader) : File :=
  mkFile (Hdr f) o (Sections f) (symbols f).
Definition set_Sections (f : File) (l : list (option Section)) : File :=
  mkFile (Hdr f) (OptHdr f) l (symbols f).
Definition set_symbols (f : File) (l : list Symbol) : File :=
  mkFile (Hdr f) (OptHdr f) (Sections f) l.

(** *** Target identifiers *)

Definition targetIDMap : gmap Z string :=
  <[0x0097%Z := "TMS470"%string]>
 (<[0x0098%Z := "TMS320C5400"%string]>
 (<[0x0099%Z := "TMS320C6000"%string]>
 (<[0x009C%Z := "TMS320C5500"%string]>
 (<[0x009D%Z := "TMS320C2800"%string]>
 (<[0x00A0%Z := "MSP430"%string]>
 (<[0x00A1%Z := "TMS320C5500+"%string]> ∅)))))).

Definition IsValidTargetID (header : FileHeader) : bool :=
  match targetIDMap !! TargetID header with
  | Some _ => true
  | None => false
  end.

(** *** Name resolution *)

(** A [[8]byte] array. *)
Record chars8 := mkChars {
  c0 : byte; c1 : byte; c2 : byte; c3 : byte;
  c4 : byte; c5 : byte; c6 : byte; c7 : byte
}.

Definition chars_zero : chars8 :=
  mkChars NUL NUL NUL NUL NUL NUL NUL NUL.

(** [name[:]] *)
Definition chars_slice (n : chars8) : list byte :=
  [c0 n; c1 n; c2 n; c3 n; c4 n; c5 n; c6 n; c7 n].

(** The array filled from a buffer of 8 bytes. *)
Definition chars_of (b : list byte) : chars8 :=
  mkChars (nth 0 b NUL) (nth 1 b NUL) (nth 2 b NUL) (nth 3 b NUL)
          (nth 4 b NUL) (nth 5 b NUL) (nth 6 b NUL) (nth 7 b NUL).

(** The offset computed by [getString] from bytes 4..7 of the field. *)
Definition name_offset (name : chars8) : Z :=
  Z.lor (Z.lor (Z.lor (uint32 (Z.shiftl (uint8 (c7 name)) 24))
                      (uint32 (Z.shiftl (uint8 (c6 name)) 16)))
               (uint32 (Z.shiftl (uint8 (c5 name)) 8)))
        (uint32 (Z.shiftl (uint8 (c4 name)) 0)).

Definition is_indirect (name : chars8) : bool :=
  Byte.eqb (c0 name) NUL && Byte.eqb (c1 name) NUL
  && Byte.eqb (c2 name) NUL && Byte.eqb (c3 name) NUL.

(** [func getString(stringTable []byte, name [8]byte) (string, error)].
    The slice expression [stringTable[offset:]] panics when [offset]
    exceeds [len(stringTable)]. *)
Definition getString (stringTable : list byte) (name : chars8)
  : exec (string * option error) :=
  if is_indirect name then
    let offset := name_offset name in
    if (Z.of_nat (length stringTable) <? offset)%Z then
      Panics "slice bounds out of range"
    else
      let '(bs, err) := ReadBytes (drop (Z.to_nat offset) stringTable) NUL in
      match err with
      | Some e => Returns (""%string, Some e)
      | None => Returns (string_of_list_byte (take (length bs - 1) bs), None)
      end
  else
    Returns (TrimRight (string_of_list_byte (chars_slice name)) NUL, None).

(** *** The decoder *)

(** What [NewFile] hands back: [(file *File, err error)]. *)
Definition result : Type := option File * option error.

(** A loop of [NewFile] either leaves the function ([inl], a [return]
    inside the body or a panic) or runs to its end ([inr], with the
    variables it has updated). *)
Definition loop_exit : Type := exec result + File * io.SectionReader.

Definition chars_fields : list binary.field :=
  [ binary.F (binary.ByteArray 8) ].

(** [binary.Read(sr, binary.LittleEndian, &chars)] *)
Definition read_chars (s : io.SectionReader)
  : io.SectionReader * chars8 * option error :=
  let '(s', buf, err) := io.ReadFull s (binary.Size chars_fields) in
  (s', chars_of buf, err).

(** One iteration of [for i := 0; i < len(file.Sections); i++]: it
    leaves the function, or hands on [file], [sr] and [offset]. *)
Definition sectionBody (i : nat) (r : io.ReaderAt) (stringTable : list byte)
    (file : File) (sr : io.SectionReader) (offset : Z)
  : exec result + File * io.SectionReader * Z :=
  let '(sr, chars, err) := read_chars sr in
  match err with
  | Some e => inl (Returns (Some file, Some e))
  | None =>
  let '(sr, header, err) := binary.Read sr sectionHeader_fields in
  match err with
  | Some e => inl (Returns (Some file, Some e))
  | None =>
  let offset := (offset + Z.of_nat (binary.Size chars_fields))%Z in
  let offset := (offset + Z.of_nat (binary.Size sectionHeader_fields))%Z in
  match getString stringTable chars with
  | Panics msg => inl (Panics msg)
  | OutOfFuel => inl OutOfFuel
  | Returns (_, Some e) => inl (Returns (Some file, Some e))
  | Returns (name, None) =>
      let hdr :=
        {| Name := name;
           PhysicalAddress := nth 0 header 0%Z;
           VirtualAddress := nth 1 header 0%Z;
           Size := nth 2 header 0%Z;
           RawDataAddress := nth 3 header 0%Z;
           RelocationEntriesAddress := nth 4 header 0%Z;
           NumRelocationEntries := nth 5 header 0%Z;
           SectionFlags := nth 6 header 0%Z;
           MemoryPageNumber := nth 7 header 0%Z |} in
      let sr := io.Seek sr 0 in
      let section :=
        mkSection hdr
          (io.NewSectionReader r (RawDataAddress hdr) (Size hdr)) in
      let sr := io.Seek sr offset in
      let file :=
        set_Sections file (<[i := Some section]> (Sections file)) in
      inr (file, sr, offset)
  end
  end
  end.

(** The section loop, with [n] iterations to go and index [i]. *)
Fixpoint readSections (n i : nat) (r : io.ReaderAt) (stringTable : list byte)
    (file : File) (sr : io.SectionReader) (offset : Z) : loop_exit :=
  match n with
  | O => inr (file, sr)
  | S n' =>
      match sectionBody i r stringTable file sr offset with
      | inl ret => inl ret
      | inr (file, sr, offset) =>
          readSections n' (S i) r stringTable file sr offset
      end
  end.

(** One iteration of [for i := file.NumSymbolTableEntries; i > 0; i--],
    without the post statement: it leaves the function, or hands on the
    counter, [file] and [sr].  The counter [i] is a [uint32]: the
    decrement wraps around. *)
Definition symbolBody (i : Z) (stringTable : list byte)
    (file : File) (sr : io.SectionReader)
  : exec result + Z * File * io.SectionReader :=
  let '(sr, chars, err) := read_chars sr in
  match err with
  | Some e => inl (Returns (Some file, Some e))
  | None =>
  let '(sr, sym, err) := binary.Read sr symbol_fields in
  match err with
  | Some e => inl (Returns (Some file, Some e))
  | None =>
  match getString stringTable chars with
  | Panics msg => inl (Panics msg)
  | OutOfFuel => inl OutOfFuel
  | Returns (_, Some e) => inl (Returns (Some file, Some e))
  | Returns (name, None) =>
      (* Check if any auxiliary entries exist, these also count towards
         the total symbol entry count. *)
      let numAux := nth 3 sym 0%Z in
      let '(i, sr, auxEntry, err) :=
        if (numAux =? 1)%Z then
          let i := uint32 (i - 1) in
          let '(sr, aux, err) := binary.Read sr AuxiliaryEntry_fields in
          (i, sr, Some (AuxiliaryEntry_of aux), err)
        else (i, sr, None, None) in
      match err with
      | Some e => inl (Returns (Some file, Some e))
      | None =>
          let file :=
            set_symbols file
              (symbols file ++
               [ {| SymName := name;
                    Value := nth 0 sym 0%Z;
                    SectionNumber := nth 1 sym 0%Z;
                    StorageClass := nth 2 sym 0%Z;
                    NumAuxEntries := numAux;
                    AuxEntry := auxEntry |} ]) in
          inr (i, file, sr)
      end
  end
  end
  end.

(** The symbol loop: test [i > 0], body, post statement [i--] (which
    wraps around as well).  [fuel] bounds the number of iterations
    evaluated. *)
Fixpoint readSymbols (fuel : nat) (i : Z) (stringTable : list byte)
    (file : File) (sr : io.SectionReader) : loop_exit :=
  if (0 <? i)%Z then
    match fuel with
    | O => inl OutOfFuel
    | S fuel' =>
        match symbolBody i stringTable file sr with
        | inl ret => inl ret
        | inr (i, file, sr) =>
            readSymbols fuel' (uint32 (i - 1)) stringTable file sr
        end
    end
  else inr (file, sr).

(** [func NewFile(r io.ReaderAt) (file *File, err error)].  Every
    iteration of the symbol loop reads at least one byte or returns, so
    [S (length r)] iterations are never exhausted.

    The slices are taken to be allocated: [make([]Symbol, 0,
    file.NumSymbolTableEntries)] asks for up to [2^32 - 1] elements
    whatever the length of the source, and a run that the Go runtime
    aborts there for lack of memory has no outcome in [exec]. *)
Definition NewFile (r : io.ReaderAt) : exec result :=
  let file := File_zero in
  let sr := io.NewSectionReader r 0 io.maxint64 in
  let offset := 0%Z in
  (* Read and validate the file header *)
  let '(sr, v, err) := binary.Read sr FileHeader_fields in
  match err with
  | Some e => Returns (Some file, Some e)
  | None =>
  let file := set_Hdr file (FileHeader_of v) in
  if negb (IsValidTargetID (Hdr file)) then
    Returns (None, Some ErrInvalidTargetID)
  else
  let offset := (offset + Z.of_nat (binary.Size FileHeader_fields))%Z in
  let '(file, sr, offset, err) :=
    if (0 <? OptionalFileHeaderSize (Hdr file))%Z then
      let '(sr, v, err) := binary.Read sr OptionalFileHeader_fields in
      let file := set_OptHdr file (Some (OptionalFileHeader_of v)) in
      match err with
      | Some e => (file, sr, offset, Some e)
      | None =>
          (file, sr,
           (offset + Z.of_nat (binary.Size OptionalFileHeader_fields))%Z,
           None)
      end
    else (file, sr, offset, None) in
  match err with
  | Some e => Returns (Some file, Some e)
  | None =>
  (* Skip ahead to read the string table *)
  let sr :=
    io.Seek sr (SymbolTableStartAddress (Hdr file)
                + NumSymbolTableEntries (Hdr file) * 18)%Z in
  let '(sr, stringTable, err) := io.ReadAll sr in
  match err with
  | Some e => Returns (Some file, Some e)
  | None =>
  (* Reset to beginning of section headers *)
  let sr := io.Seek sr offset in
  (* Read all section headers *)
  let file :=
    set_Sections file (replicate (Z.to_nat (NumSections (Hdr file))) None) in
  match readSections (length (Sections file)) 0 r stringTable file sr offset with
  | inl ret => ret
  | inr (file, sr) =>
  (* Read symbol table *)
  let sr := io.Seek sr (SymbolTableStartAddress (Hdr file)) in
  let file := set_symbols file [] in
  match readSymbols (S (length r)) (NumSymbolTableEntries (Hdr file))
                    stringTable file sr with
  | inl ret => ret
  | inr (file, _) => Returns (Some file, None)
  end
  end
  end
  end
  end.

(** [func (f *File) Symbols() ([]Symbol, error)] *)
Definition Symbols (f : File) : list Symbol * option error :=
  (symbols f, None).

(** [func Open(name string) (f *File, err error)].  The result is what
    the function returns, with the [closer] field of the returned file kept
    beside it, and the files it has closed on the way. *)
Record Opened := mkOpened {
  closed : list os.File;
  returned : exec result;
  closer : option os.File
}.

Section WithFiles.

(** [os.Open]: an open file, or the error of the operating system. *)
Variable os_Open : string -> os.File + error.

Definition Open (name : string) : Opened :=
  match os_Open name with
  | inr err => mkOpened [] (Returns (None, Some err)) None
  | inl osf =>
      match NewFile (os.contents osf) with
      | Returns (f, Some err) => mkOpened [osf] (Returns (f, Some err)) None
      | Returns (None, None) =>
          mkOpened [] (Panics "nil pointer dereference") None
      | Returns (Some f, None) => mkOpened [] (Returns (Some f, None)) (Some osf)
      | Panics msg => mkOpened [] (Panics msg) None
      | OutOfFuel => mkOpened [] OutOfFuel None
      end
  end.

(** [Close] of an [os.File]: the error of the operating system, if any. *)
Variable os_Close : os.File -> option error.

(** [func (f *File) Close() error], on the [closer] field of the file:
    the files it closes, and the error. *)
Definition Close (closer : option os.File) : list os.File * option error :=
  match closer with
  | Some c => ([c], os_Close c)
  | None => ([], None)
  end.

End WithFiles.

(** [func (s *Section) Open() io.ReadSeeker] *)
Definition Section_Open (s : Section) : io.SectionReader :=
  io.NewSectionReader (io.as_ReaderAt (sr s)) 0 io.maxint64.

(** [func (tid TargetID) String() string] *)
Definition TargetID_String (tid : Z) : string :=
  let s :=
    match targetIDMap !! tid with
    | Some deviceFamily => deviceFamily
    | None => "Unknown"%string
    end in
  s +:+ " (0x" +:+ Sprintf_04X (uint16 tid) +:+ ")".

(** The name [func (c StorageClass) String()] picks in its [switch]. *)
Definition StorageClass_name (c : Z) : string :=
  match c with
  | 0 => "C_NULL"
  | 1 => "C_AUTO"
  | 2 => "C_EXT"
  | 3 => "C_STAT"
  | 4 => "C_REG"
  | 5 => "C_EXTREF"
  | 6 => "C_LABEL"
  | 7 => "C_ULABEL"
  | 8 => "C_MOS"
  | 9 => "C_ARG"
  | 10 => "C_STRTAG"
  | 11 => "C_MOU"
  | 12 => "C_UNTAG"
  | 13 => "C_TPDEF"
  | 14 => "C_USTATIC"
  | 15 => "C_ENTAG"
  | 16 => "C_MOE"
  | 17 => "C_REGPARM"
  | 18 => "C_FIELD"
  | 19 => "C_UEXT"
  | 20 => "C_STATLAB"
  | 21 => "C_EXTLAB"
  | 27 => "C_VARARG"
  | 100 => "C_BLOCK"
  | 101 => "C_FCN"
  | 102 => "C_EOS"
  | 103 => "C_FILE"
  | 104 => "C_LINE"
  | _ => "Unknown"
  end%Z%string.

(** [func (c StorageClass) String() string], for a [uint8] value [c]. *)
Definition StorageClass_String (c : Z) : string :=
  StorageClass_name c +:+ " (" +:+ Sprintf_d (Z.to_nat c) +:+ ")".

End coff.

(** ** Package [debug/elf]: the external decoder, interface only *)

Module elf.

Record Section := mkSection {
  SectName : string;
  Addr : Z;
  SectSize : Z
}.

Record Symbol := mkSymbol {
  SymName : string;
  SymValue : Z;
  SymSize : Z
}.

(** A decoded file: its sections, and what its [Symbols()] method
    returns. *)
Record File := mkFile {
  Sections : list Section;
  Symbols : list Symbol * option error
}.

End elf.

(** ** Package [debug] *)

Module debug.

Inductive FileType : Type :=
| FileTypeUnknown
| FileTypeELF
| FileTypeCOFF.

(** The two implementations of [interface Section]. *)
Inductive Section : Type :=
| elfSection (s : elf.Section)
| coffSection (s : option coff.Section).

(** [type Symbol struct] *)
Record Symbol := mkSymbol {
  Name : string;
  Value : Z;
  Size : Z
}.

Definition Symbol_zero : Symbol := mkSymbol "" 0 0.

Definition set_Name (n : string) (s : Symbol) : Symbol :=
  mkSymbol n (Value s) (Size s).
Definition set_Value (v : Z) (s : Symbol) : Symbol :=
  mkSymbol (Name s) v (Size s).
Definition set_Size (z : Z) (s : Symbol) : Symbol :=
  mkSymbol (Name s) (Value s) z.

(** [type File struct] *)
Record File := mkFile {
  Type_ : FileType;
  Sections : list Section;
  Symbols : list Symbol;
  closer : option os.File
}.

(** [new(File)] *)
Definition File_zero : File := mkFile FileTypeUnknown [] [] None.

Definition result : Type := option File * option error.

(** [func Errors(err error) (errs []error)] *)
Definition Errors (err : error) : list error :=
  match err with
  | ErrorSlice es => es
  | _ => [err]
  end.

(** What a run of the dispatcher does to its collaborators, in order. *)
Inductive event : Type :=
| call_elf_NewFile
| call_coff_NewFile
| call_Close (f : os.File).

(** [for i := 0; i < len(file.Symbols); i++] over the ELF symbols: the
    element [i] of the zeroed slice is assigned field by field. *)
Fixpoint copy_elf_symbols (n i : nat) (symbols : list elf.Symbol)
    (out : list Symbol) : list Symbol :=
  match n with
  | O => out
  | S n' =>
      match symbols !! i with
      | None => out
      | Some s =>
          let out := alter (set_Name (elf.SymName s)) i out in
          let out := alter (set_Value (elf.SymValue s)) i out in
          let out := alter (set_Size (elf.SymSize s)) i out in
          copy_elf_symbols n' (S i) symbols out
      end
  end.

(** The same loop over the COFF symbols: [Size] is assigned only when
    the symbol has an auxiliary entry. *)
Fixpoint copy_coff_symbols (n i : nat) (symbols : list coff.Symbol)
    (out : list Symbol) : list Symbol :=
  match n with
  | O => out
  | S n' =>
      match symbols !! i with
      | None => out
      | Some s =>
          let out := alter (set_Name (coff.SymName s)) i out in
          let out := alter (set_Value (uint64 (coff.Value s))) i out in
          let out :=
            match coff.AuxEntry s with
            | Some aux => alter (set_Size (uint64 (coff.AuxSize aux))) i out
            | None => out
            end in
          copy_coff_symbols n' (S i) symbols out
      end
  end.

Section Dispatcher.

(** [elf.NewFile]: a decoded file, or the reason it is not ELF. *)
Variable elf_NewFile : io.ReaderAt -> elf.File + error.

(** [func NewFile(r io.ReaderAt) (file *File, err error)], with the
    calls it makes to the two decoders. *)
Definition NewFile (r : io.ReaderAt) : list event * exec result :=
  let file := File_zero in
  let es : list error := [] in
  let log := [call_elf_NewFile] in
  match elf_NewFile r with
  | inl ef =>
      let file :=
        mkFile FileTypeELF (elfSection <$> elf.Sections ef)
               (Symbols file) (closer file) in
      match elf.Symbols ef with
      | (_, Some err) => (log, Returns (Some file, Some err))
      | (symbols, None) =>
          let out := replicate (length symbols) Symbol_zero in
          let out := copy_elf_symbols (length out) 0 symbols out in
          let file :=
            mkFile (Type_ file) (Sections file) out (closer file) in
          (log, Returns (Some file, None))
      end
  | inr err =>
      let es := es ++ [Errorf "debug/elf: " err] in
      (* Try COFF *)
      let log := log ++ [call_coff_NewFile] in
      match coff.NewFile r with
      | Panics msg => (log, Panics msg)
      | OutOfFuel => (log, OutOfFuel)
      | Returns (None, None) => (log, Panics "nil pointer dereference")
      | Returns (Some cf, None) =>
          let file :=
            mkFile FileTypeCOFF (coffSection <$> coff.Sections cf)
                   (Symbols file) (closer file) in
          match coff.Symbols cf with
          | (_, Some err) => (log, Returns (Some file, Some err))
          | (symbols, None) =>
              let out := replicate (length symbols) Symbol_zero in
              let out := copy_coff_symbols (length out) 0 symbols out in
              let file :=
                mkFile (Type_ file) (Sections file) out (closer file) in
              (log, Returns (Some file, None))
          end
      | Returns (_, Some err) =>
          let es := es ++ [Errorf "debug/coff: " err] in
          (log, Returns (None, Some (ErrorSlice es)))
      end
  end.

(** [os.Open]: an open file, or the error of the operating system. *)
Variable os_Open : string -> os.File + error.

(** [func Open(name string)], returning a [*File] and an [error] *)
Definition Open (name : string) : list event * exec result :=
  match os_Open name with
  | inr err => ([], Returns (None, Some err))
  | inl f =>
      match NewFile (os.contents f) with
      | (log, Returns (_, Some err)) =>
          (log ++ [call_Close f], Returns (None, Some err))
      | (log, Returns (None, None)) =>
          (log, Panics "nil pointer dereference")
      | (log, Returns (Some df, None)) =>
          (log,
           Returns (Some (mkFile (Type_ df) (Sections df) (Symbols df)
                                 (Some f)), None))
      | (log, Panics msg) => (log, Panics msg)
      | (log, OutOfFuel) => (log, OutOfFuel)
      end
  end.

End Dispatcher.

Section Closing.

(** [Close] of an [os.File]: the error of the operating system, if any. *)
Variable os_Close : os.File -> option error.

(** [func (f *File) Close() error], with the calls it makes. *)
Definition Close (f : File) : list event * option error :=
  match closer f with
  | Some c => ([call_Close c], os_Close c)
  | None => ([], None)
  end.

End Closing.

(** [func (t FileType) String() string] *)
Definition FileType_String (t : FileType) : string :=
  match t with
  | FileTypeELF => "ELF"
  | FileTypeCOFF => "TI-COFF"
  | FileTypeUnknown => "FileType" +:+ Sprintf_d 0
  end.

(** The methods [Name], [Address] and [Size] of the two implementations
    of [Section].  A [coffSection] that wraps a nil section makes them
    panic. *)
Definition Section_Name (s : Section) : exec string :=
  match s with
  | elfSection s => Returns (elf.SectName s)
  | coffSection (Some s) => Returns (coff.Name (coff.Header s))
  | coffSection None => Panics "nil pointer dereference"
  end.

Definition Section_Address (s : Section) : exec Z :=
  match s with
  | elfSection s => Returns (uint64 (elf.Addr s))
  | coffSection (Some s) =>
      Returns (uint64 (coff.PhysicalAddress (coff.Header s)))
  | coffSection None => Panics "nil pointer dereference"
  end.

Definition Section_Size (s : Section) : exec Z :=
  match s with
  | elfSection s => Returns (uint64 (elf.SectSize s))
  | coffSection (Some s) => Returns (uint64 (coff.Size (coff.Header s)))
  | coffSection None => Panics "nil pointer dereference"
  end.

End debug.

(** ** Package [debug], the earlier revision of the file

    It has no [Symbols] and reports one fixed error.  The types
    [FileType] and [Section] are those of the later revision. *)

Module debug0.

(** [type File struct] *)
Record File := mkFile {
  Type_ : debug.FileType;
  Sections : list debug.Section;
  closer : option os.File
}.

Definition result : Type := option File * option error.

Section Dispatcher.

Variable elf_NewFile : io.ReaderAt -> elf.File + error.

(** [func NewFile(r io.ReaderAt) (file *File, err error)], with the
    calls it makes to the two decoders. *)
Definition NewFile (r : io.ReaderAt) : list debug.event * exec result :=
  let file := mkFile debug.FileTypeUnknown [] None in
  let log := [debug.call_elf_NewFile] in
  (* Try ELF *)
  match elf_NewFile r with
  | inl f =>
      (log,
       Returns (Some (mkFile debug.FileTypeELF
                        (debug.elfSection <$> elf.Sections f) (closer file)),
                None))
  | inr _ =>
      (* Try COFF *)
      let log := log ++ [debug.call_coff_NewFile] in
      match coff.NewFile r with
      | Panics msg => (log, Panics msg)
      | OutOfFuel => (log, OutOfFuel)
      | Returns (None, None) => (log, Panics "nil pointer dereference")
      | Returns (Some f, None) =>
          (log,
           Returns (Some (mkFile debug.FileTypeCOFF
                            (debug.coffSection <$> coff.Sections f)
                            (closer file)),
                    None))
      | Returns (_, Some _) =>
          (* Unsupported file type *)
          (log, Returns (None, Some (errorString "unsupported debug file type")))
      end
  end.

End Dispatcher.

End debug0.

(** ** Building byte sources

    Little-endian encoders, used to write down concrete object files. *)

Definition byte_of_Z (z : Z) : byte :=
  match Byte.of_N (Z.to_N (z mod 256)) with
  | Some b => b
  | None => NUL
  end.

Definition le16 (z : Z) : list byte :=
  [byte_of_Z z; byte_of_Z (Z.shiftr z 8)].

Definition le32 (z : Z) : list byte :=
  [byte_of_Z z; byte_of_Z (Z.shiftr z 8);
   byte_of_Z (Z.shiftr z 16); byte_of_Z (Z.shiftr z 24)].

(** A name of at most 8 bytes, padded with NUL to the 8-byte field. *)
Definition inline_name (s : string) : list byte :=
  take 8 (list_byte_of_string s ++ replicate 8 NUL).

(** A name field that refers to the string table at [offset]. *)
Definition table_name (offset : Z) : list byte :=
  le32 0 ++ le32 offset.

(** A file header with the given counts and target identifier. *)
Definition header_bytes (nsections symstart nsyms optsize tid : Z) : list byte :=
  le16 0xC2 ++ le16 nsections ++ le32 0 ++ le32 symstart ++ le32 nsyms
    ++ le16 optsize ++ le16 0 ++ le16 tid.

(** A symbol-table slot holding a symbol, and one holding an auxiliary
    record. *)
Definition symbol_bytes (name : list byte) (value section class naux : Z)
  : list byte :=
  name ++ le32 value ++ le16 section ++ le16 0
       ++ [byte_of_Z class; byte_of_Z naux].

Definition aux_bytes (size nreloc nline : Z) : list byte :=
  le32 size ++ le16 nreloc ++ le16 nline ++ replicate 10 NUL.

(** A section header slot. *)
Definition section_bytes (name : list byte) (paddr size raw : Z) : list byte :=
  name ++ le32 paddr ++ le32 paddr ++ le32 size ++ le32 raw ++ le32 0
       ++ le32 0 ++ le32 0 ++ le32 0 ++ le32 0x20 ++ le16 0 ++ le16 0.

(** A well-formed object file: one section, three symbol-table entries
    (a symbol with its auxiliary record, then a symbol named through the
    string table), and the string table. *)
Definition sample_file : list byte :=
  header_bytes 1 70 3 0 0x97
    ++ section_bytes (inline_name ".text") 0x1000 4 0
    ++ symbol_bytes (inline_name "main") 0x1000 1 2 1
    ++ aux_bytes 64 0 0
    ++ symbol_bytes (table_name 4) 0x2000 (-1) 3 0
    ++ le32 0 ++ list_byte_of_string "a_long_symbol_name" ++ [NUL].

(** Three declared entries, but the symbol in the third slot claims an
    auxiliary record as well; two more slots follow the declared table. *)
Definition overrun_file : list byte :=
  header_bytes 0 22 3 0 0x97
    ++ symbol_bytes (inline_name "main") 0x1000 1 2 1
    ++ aux_bytes 64 0 0
    ++ symbol_bytes (inline_name "b") 0x2000 (-1) 3 1
    ++ aux_bytes 1 2 3
    ++ symbol_bytes (inline_name "c") 7 7 7 0.

(** Two sections declared, the source ends 20 bytes into the second
    section header. *)
Definition truncated_file : list byte :=
  header_bytes 2 118 0 0 0x97
    ++ section_bytes (inline_name ".text") 0x1000 4 0
    ++ take 20 (section_bytes (inline_name ".data") 0x2000 4 4).

(** A stand-in for the external ELF decoder: it accepts a source that
    starts with the ELF magic number, and finds no section and no symbol
    in it. *)
Definition elf_magic : list byte := ["127"; "E"; "L"; "F"]%byte.

Definition magic_elf_NewFile (r : io.ReaderAt) : elf.File + error :=
  if decide (take 4 (Byte.to_N <$> r) = Byte.to_N <$> elf_magic)
  then inl (elf.mkFile [] ([], None))
  else inr (errorString "bad magic number").

(** A stand-in for the file system: one ELF file and one COFF file. *)
Definition two_files_Open (name : string) : os.File + error :=
  if String.eqb name "a.out" then inl (os.mkFile name (elf_magic ++ [NUL]))
  else if String.eqb name "a.obj" then inl (os.mkFile name sample_file)
  else inr (errorString "no such file or directory").

(** The 52-byte file header of a 32-bit little-endian ELF executable for
    the MSP430, with [shnum] section headers of 40 bytes at offset
    [shoff] and the section names in section [shstrndx]. *)
Definition elf32_header (shoff shnum shstrndx : Z) : list byte :=
  elf_magic ++ [byte_of_Z 1; byte_of_Z 1; byte_of_Z 1] ++ replicate 9 NUL
    ++ le16 2 ++ le16 105 ++ le32 1 ++ le32 0x4400 ++ le32 0 ++ le32 shoff
    ++ le32 0 ++ le16 52 ++ le16 0 ++ le16 0 ++ le16 40 ++ le16 shnum
    ++ le16 shstrndx.

(** A 40-byte ELF32 section header and a 16-byte ELF32 symbol. *)
Definition elf32_section (name kind flags addr off size link info align
                          entsize : Z) : list byte :=
  le32 name ++ le32 kind ++ le32 flags ++ le32 addr ++ le32 off ++ le32 size
    ++ le32 link ++ le32 info ++ le32 align ++ le32 entsize.

Definition elf32_symbol (name value size info shndx : Z) : list byte :=
  le32 name ++ le32 value ++ le32 size ++ [byte_of_Z info; NUL] ++ le16 shndx.

(** A well-formed ELF file: four bytes of code at offset 52, a symbol
    table of two symbols (after the null symbol) at 56, their names at
    104, the section names at 115 and five section headers at 148. *)
Definition sample_elf : list byte :=
  elf32_header 148 5 4
    ++ [byte_of_Z 0x30; byte_of_Z 0x41; byte_of_Z 0x30; byte_of_Z 0x41]
    ++ replicate 16 NUL
    ++ elf32_symbol 1 0x4400 2 0x12 1
    ++ elf32_symbol 6 0x4402 2 0x12 1
    ++ [NUL] ++ list_byte_of_string "main" ++ [NUL]
    ++ list_byte_of_string "done" ++ [NUL]
    ++ [NUL] ++ list_byte_of_string ".text" ++ [NUL]
    ++ list_byte_of_string ".symtab" ++ [NUL]
    ++ list_byte_of_string ".strtab" ++ [NUL]
    ++ list_byte_of_string ".shstrtab" ++ [NUL]
    ++ replicate 40 NUL
    ++ elf32_section 1 1 6 0x4400 52 4 0 0 2 0
    ++ elf32_section 7 2 0 0 56 48 3 1 4 16
    ++ elf32_section 15 3 0 0 104 11 0 0 1 0
    ++ elf32_section 23 3 0 0 115 33 0 0 1 0.

(** What [debug/elf] finds in [sample_elf]: the five sections, the null
    section included, and the two symbols. *)
Definition sample_elf_File : elf.File :=
  elf.mkFile
    [elf.mkSection "" 0 0; elf.mkSection ".text" 0x4400 4;
     elf.mkSection ".symtab" 0 48; elf.mkSection ".strtab" 0 11;
     elf.mkSection ".shstrtab" 0 33]
    ([elf.mkSymbol "main" 0x4400 2; elf.mkSymbol "done" 0x4402 2], None).

(** A well-formed ELF file without any section: the file header alone.
    [debug/elf] decodes it, and [Symbols()] of the decoded file fails
    with [ErrNoSymbols], as for every ELF file without a symbol table. *)
Definition stripped_elf : list byte := elf32_header 0 0 0.

Definition stripped_elf_File : elf.File :=
  elf.mkFile [] ([], Some (errorString "no symbol section")).

(** A stand-in for the external ELF decoder on these two sources; it
    refuses every other source. *)
Definition known_elf_NewFile (r : io.ReaderAt) : elf.File + error :=
  if decide (Byte.to_N <$> r = Byte.to_N <$> sample_elf)
  then inl sample_elf_File
  else if decide (Byte.to_N <$> r = Byte.to_N <$> stripped_elf)
  then inl stripped_elf_File
  else inr (errorString "bad magic number").

(** A stand-in for the file system that holds the two ELF files. *)
Definition elf_files_Open (name : string) : os.File + error :=
  if String.eqb name "prog.elf" then inl (os.mkFile name sample_elf)
  else if String.eqb name "stripped.elf" then inl (os.mkFile name stripped_elf)
  else inr (errorString "no such file or directory").

(** A well-formed object file without symbols: two sections, the first
    named through the string table, which starts at offset 118. *)
Definition named_file : list byte :=
  header_bytes 2 118 0 0 0x97
    ++ section_bytes (table_name 4) 0x1000 4 0
    ++ section_bytes (inline_name ".data") 0x2000 4 4
    ++ le32 0 ++ list_byte_of_string ".text:bootloader" ++ [NUL].

(** The first 90 bytes of it: the source ends 20 bytes into the second
    section header. *)
Definition truncated_named_file : list byte := take 90 named_file.


(** ** Vocabulary of the statements

    What a byte source holds at the places the decoder reads. *)

(** The reader [NewFile] decodes from: base 0, limit [1<<63 - 1], cursor
    at [o]. *)
Definition mainR (r : io.ReaderAt) (o : Z) : io.SectionReader :=
  io.mkSectionReader r 0 o io.maxint64.

(** [n] bytes of [r] from offset [o] on. *)
Definition bytes_at (r : list byte) (o : Z) (n : nat) : list byte :=
  take n (drop (Z.to_nat o) r).

(** The file header held by the first bytes of [r]. *)
Definition header_of (r : list byte) : coff.FileHeader :=
  coff.FileHeader_of
    (binary.decode coff.FileHeader_fields
       (bytes_at r 0 (binary.Size coff.FileHeader_fields))).

(** Where the section headers start and end, by the counts of header [h]. *)
Definition headers_end (h : coff.FileHeader) : Z :=
  (Z.of_nat (binary.Size coff.FileHeader_fields)
   + (if (0 <? coff.OptionalFileHeaderSize h)%Z
      then Z.of_nat (binary.Size coff.OptionalFileHeader_fields) else 0))%Z.

Definition section_record_size : Z :=
  Z.of_nat (binary.Size coff.chars_fields
            + binary.Size coff.sectionHeader_fields).

Definition sections_end (h : coff.FileHeader) : Z :=
  (headers_end h + section_record_size * coff.NumSections h)%Z.

(** The optional header held by the bytes after the file header. *)
Definition optional_header_of (r : list byte) : option coff.OptionalFileHeader :=
  if (0 <? coff.OptionalFileHeaderSize (header_of r))%Z then
    Some (coff.OptionalFileHeader_of
            (binary.decode coff.OptionalFileHeader_fields
               (bytes_at r (Z.of_nat (binary.Size coff.FileHeader_fields))
                  (binary.Size coff.OptionalFileHeader_fields))))
  else None.

(** The file as it stands when the section loop is entered. *)
Definition decoded_headers (r : list byte) : coff.File :=
  coff.mkFile (header_of r) (optional_header_of r)
    (replicate (Z.to_nat (coff.NumSections (header_of r))) None) [].

(** The bytes the decoder takes as the string table. *)
Definition string_table (r : list byte) : list byte :=
  io.avail (mainR r (coff.SymbolTableStartAddress (header_of r)
                     + coff.NumSymbolTableEntries (header_of r) * 18)).

(** The raw name field of section record [j]. *)
Definition section_name (r : list byte) (j : nat) : coff.chars8 :=
  coff.chars_of
    (bytes_at r (headers_end (header_of r) + section_record_size * Z.of_nat j) 8).

(** The aux-count byte of the symbol held by the slot at offset [o]. *)
Definition aux_count (r : list byte) (o : Z) : Z :=
  nth 3 (binary.decode coff.symbol_fields
           (bytes_at r (o + 8) (binary.Size coff.symbol_fields))) 0%Z.

(** The auxiliary record held by the slot at offset [o]. *)
Definition aux_at (r : list byte) (o : Z) : coff.AuxiliaryEntry :=
  coff.AuxiliaryEntry_of
    (binary.decode coff.AuxiliaryEntry_fields
       (bytes_at r o (binary.Size coff.AuxiliaryEntry_fields))).

(** The symbol held by the slot at offset [o], with its resolved name; its
    auxiliary record is the next slot when the aux-count byte is 1. *)
Definition symbol_at (r : list byte) (o : Z) (name : string) : coff.Symbol :=
  let sym :=
    binary.decode coff.symbol_fields
      (bytes_at r (o + 8) (binary.Size coff.symbol_fields)) in
  {| coff.SymName := name;
     coff.Value := nth 0 sym 0%Z;
     coff.SectionNumber := nth 1 sym 0%Z;
     coff.StorageClass := nth 2 sym 0%Z;
     coff.NumAuxEntries := nth 3 sym 0%Z;
     coff.AuxEntry :=
       if (aux_count r o =? 1)%Z then Some (aux_at r (o + 18)) else None |}.

(** Symbol-table slots a decoded symbol stands for: its own, and one more
    for its auxiliary record. *)
Definition slots (s : coff.Symbol) : nat :=
  match coff.AuxEntry s with
  | Some _ => 2
  | None => 1
  end.

Definition entries_consumed (l : list coff.Symbol) : nat :=
  sum_list (slots <$> l).

(** A decoded symbol's numbers are in the range of their field types. *)
Definition in_range (s : coff.Symbol) : Prop :=
  (0 <= coff.Value s < 2 ^ 32)%Z
  /\ forall aux, coff.AuxEntry s = Some aux -> (0 <= coff.AuxSize aux < 2 ^ 32)%Z.

(** The unified record of a COFF symbol. *)
Definition unified (s : coff.Symbol) : debug.Symbol :=
  debug.mkSymbol (coff.SymName s) (uint64 (coff.Value s))
    match coff.AuxEntry s with
    | Some aux => uint64 (coff.AuxSize aux)
    | None => 0%Z
    end.

(** The errors a short read produces. *)
Definition truncated_read (e : error) : Prop :=
  e = EOF \/ e = ErrUnexpectedEOF.

(** The target identifiers of the TI-COFF specification. *)
Definition known_target_ids : list Z :=
  [0x0097; 0x0098; 0x0099; 0x009C; 0x009D; 0x00A0; 0x00A1]%Z.

(** The section held by the record at offset [o], with its resolved
    name; its view is the window [RawDataAddress, RawDataAddress + Size)
    of the source. *)
Definition section_at (r : list byte) (o : Z) (name : string) : coff.Section :=
  let header :=
    binary.decode coff.sectionHeader_fields
      (bytes_at r (o + 8) (binary.Size coff.sectionHeader_fields)) in
  coff.mkSection
    {| coff.Name := name;
       coff.PhysicalAddress := nth 0 header 0%Z;
       coff.VirtualAddress := nth 1 header 0%Z;
       coff.Size := nth 2 header 0%Z;
       coff.RawDataAddress := nth 3 header 0%Z;
       coff.RelocationEntriesAddress := nth 4 header 0%Z;
       coff.NumRelocationEntries := nth 5 header 0%Z;
       coff.SectionFlags := nth 6 header 0%Z;
       coff.MemoryPageNumber := nth 7 header 0%Z |}
    (io.NewSectionReader r (nth 3 header 0%Z) (nth 2 header 0%Z)).

(** [slot_walk r st o l o']: the symbols [l] are those of consecutive
    slots of [r] from offset [o] up to offset [o']; each name resolves in
    the string table [st], and a symbol with an auxiliary record is
    followed by the slot after that record. *)
Inductive slot_walk (r st : list byte) : Z -> list coff.Symbol -> Z -> Prop :=
| walk_end o : slot_walk r st o [] o
| walk_slot o name l o' :
    coff.getString st (coff.chars_of (bytes_at r o 8)) = Returns (name, None) ->
    (o + 18 * Z.of_nat (slots (symbol_at r o name)) <= Z.of_nat (length r))%Z ->
    slot_walk r st (o + 18 * Z.of_nat (slots (symbol_at r o name))) l o' ->
    slot_walk r st o (symbol_at r o name :: l) o'.

(** The unified record of an ELF symbol. *)
Definition unified_elf (s : elf.Symbol) : debug.Symbol :=
  debug.mkSymbol (elf.SymName s) (elf.SymValue s) (elf.SymSize s).

(** The storage classes that [StorageClass.String] knows by name. *)
Definition named_storage_classes : list Z :=
  [0; 1; 2; 3; 4; 5; 6; 7; 8; 9; 10; 11; 12; 13; 14; 15; 16; 17; 18; 19; 20;
   21; 27; 100; 101; 102; 103; 104]%Z.

(** * Properties *)

(** ** Readers *)

Lemma NewSectionReader_main r :
  io.NewSectionReader r 0 io.maxint64 = mainR r 0.
Proof. reflexivity. Qed.

Lemma Seek_main r o x :
  (0 <= x)%Z -> io.Seek (mainR r o) x = mainR r x.
Proof.
  intros Hx. unfold io.Seek, mainR; simpl.
  rewrite Z.add_0_r. destruct (Z.ltb_spec x 0); [lia | reflexivity].
Qed.

Lemma Seek_main_any r o x :
  (0 <= o)%Z -> exists o', (0 <= o')%Z /\ io.Seek (mainR r o) x = mainR r o'.
Proof.
  intros Ho. unfold io.Seek, mainR; simpl. rewrite Z.add_0_r.
  destruct (Z.ltb_spec x 0); eauto.
Qed.

Lemma advance_main r o n :
  io.advance (mainR r o) n = mainR r (o + Z.of_nat n).
Proof. reflexivity. Qed.

Lemma avail_take_drop s :
  io.avail s
  = take (Z.to_nat (io.limit s - io.off s)) (drop (Z.to_nat (io.off s)) (io.r s)).
Proof.
  unfold io.avail.
  destruct (Z.leb_spec (Z.of_nat (length (io.r s))) (io.off s)) as [H|H].
  - rewrite drop_ge by lia. by rewrite take_nil.
  - destruct (Z.leb_spec
                (Z.of_nat (length (drop (Z.to_nat (io.off s)) (io.r s))))
                (io.limit s - io.off s)) as [H'|H']; [|done].
    rewrite take_ge; [done | lia].
Qed.

Lemma avail_main_length r o :
  (0 <= o)%Z ->
  Z.of_nat (length (io.avail (mainR r o)))
  = Z.max 0 (Z.min (io.maxint64 - o) (Z.of_nat (length r) - o)).
Proof.
  intros Ho. rewrite avail_take_drop; simpl.
  rewrite length_take, length_drop. lia.
Qed.

Lemma avail_main_take r o n :
  (0 <= o)%Z -> n ≤ length (io.avail (mainR r o)) ->
  take n (io.avail (mainR r o)) = bytes_at r o n.
Proof.
  intros Ho Hn. pose proof (avail_main_length r o Ho) as HL.
  rewrite avail_take_drop in *; simpl in *.
  rewrite take_take. unfold bytes_at. f_equal. lia.
Qed.

Lemma bytes_at_length r o n :
  (0 <= o)%Z -> (o + Z.of_nat n <= Z.of_nat (length r))%Z ->
  length (bytes_at r o n) = n.
Proof.
  intros Ho H. unfold bytes_at. rewrite length_take, length_drop. lia.
Qed.

(** A full read on the decoder's reader: what it returns and when. *)
Lemma ReadFull_main_ok r o n :
  (0 <= o)%Z ->
  (o + Z.of_nat n <= Z.of_nat (length r))%Z ->
  (o + Z.of_nat n <= io.maxint64)%Z ->
  io.ReadFull (mainR r o) n = (mainR r (o + Z.of_nat n), bytes_at r o n, None).
Proof.
  intros Ho Hr Hm. unfold io.ReadFull.
  pose proof (avail_main_length r o Ho) as HL.
  destruct (decide (n ≤ length (io.avail (mainR r o)))) as [Hn|Hn]; [|lia].
  by rewrite avail_main_take, advance_main.
Qed.

Lemma ReadFull_main_short r o n :
  (0 <= o)%Z -> 0 < n ->
  (Z.of_nat (length r) < o + Z.of_nat n)%Z ->
  exists s' b e,
    io.ReadFull (mainR r o) n = (s', b, Some e)
    /\ (e = EOF \/ e = ErrUnexpectedEOF).
Proof.
  intros Ho Hpos Hr. unfold io.ReadFull.
  pose proof (avail_main_length r o Ho) as HL.
  destruct (decide (n ≤ length (io.avail (mainR r o)))) as [Hn|Hn]; [lia|].
  destruct (io.avail (mainR r o)); eauto 10.
Qed.

(** Whatever a read on the decoder's reader returns, it is one of the two
    above. *)
Lemma ReadFull_main_inv r o n s' b err :
  (0 <= o)%Z -> 0 < n ->
  io.ReadFull (mainR r o) n = (s', b, err) ->
  (err = None /\ s' = mainR r (o + Z.of_nat n) /\ b = bytes_at r o n
   /\ (o + Z.of_nat n <= Z.of_nat (length r))%Z)
  \/ (err = Some EOF \/ err = Some ErrUnexpectedEOF).
Proof.
  intros Ho Hpos. unfold io.ReadFull.
  pose proof (avail_main_length r o Ho) as HL.
  destruct (decide (n ≤ length (io.avail (mainR r o)))) as [Hn|Hn].
  - intros [= <- <- <-]. left. rewrite avail_main_take by done.
    split; [done|]. split; [done|]. split; [done|]. lia.
  - destruct (io.avail (mainR r o)); intros [= <- <- <-]; right; eauto.
Qed.

Lemma binary_Read_main_ok r o fields :
  (0 <= o)%Z ->
  (o + Z.of_nat (binary.Size fields) <= Z.of_nat (length r))%Z ->
  (o + Z.of_nat (binary.Size fields) <= io.maxint64)%Z ->
  binary.Read (mainR r o) fields
  = (mainR r (o + Z.of_nat (binary.Size fields)),
     binary.decode fields (bytes_at r o (binary.Size fields)), None).
Proof.
  intros Ho Hr Hm. unfold binary.Read. by rewrite ReadFull_main_ok.
Qed.

Lemma binary_Read_main_short r o fields :
  (0 <= o)%Z -> 0 < binary.Size fields ->
  (Z.of_nat (length r) < o + Z.of_nat (binary.Size fields))%Z ->
  exists s' e,
    binary.Read (mainR r o) fields = (s', [], Some e)
    /\ (e = EOF \/ e = ErrUnexpectedEOF).
Proof.
  intros Ho Hpos Hr. unfold binary.Read.
  destruct (ReadFull_main_short r o _ Ho Hpos Hr) as (s' & b & e & -> & He).
  eauto.
Qed.

Lemma binary_Read_main_inv r o fields s' v err :
  (0 <= o)%Z -> 0 < binary.Size fields ->
  binary.Read (mainR r o) fields = (s', v, err) ->
  (err = None /\ s' = mainR r (o + Z.of_nat (binary.Size fields))
   /\ v = binary.decode fields (bytes_at r o (binary.Size fields))
   /\ (o + Z.of_nat (binary.Size fields) <= Z.of_nat (length r))%Z)
  \/ (v = [] /\ (err = Some EOF \/ err = Some ErrUnexpectedEOF)).
Proof.
  intros Ho Hpos. unfold binary.Read.
  destruct (io.ReadFull (mainR r o) (binary.Size fields)) as [[s1 b1] e1] eqn:E.
  apply ReadFull_main_inv in E; [|done|done].
  destruct E as [(-> & -> & -> & H)|H].
  - intros [= <- <- <-]. left. done.
  - destruct H as [-> | ->]; intros [= <- <- <-]; right; eauto.
Qed.

Lemma read_chars_main_ok r o :
  (0 <= o)%Z ->
  (o + 8 <= Z.of_nat (length r))%Z ->
  (o + 8 <= io.maxint64)%Z ->
  coff.read_chars (mainR r o)
  = (mainR r (o + 8), coff.chars_of (bytes_at r o 8), None).
Proof.
  intros Ho Hr Hm. unfold coff.read_chars.
  change (binary.Size coff.chars_fields) with 8.
  by rewrite ReadFull_main_ok by lia.
Qed.

Lemma read_chars_main_inv r o s' c err :
  (0 <= o)%Z ->
  coff.read_chars (mainR r o) = (s', c, err) ->
  (err = None /\ s' = mainR r (o + 8) /\ c = coff.chars_of (bytes_at r o 8)
   /\ (o + 8 <= Z.of_nat (length r))%Z)
  \/ (err = Some EOF \/ err = Some ErrUnexpectedEOF).
Proof.
  intros Ho. unfold coff.read_chars.
  change (binary.Size coff.chars_fields) with 8.
  destruct (io.ReadFull (mainR r o) 8) as [[s1 b1] e1] eqn:E.
  apply ReadFull_main_inv in E; [|done|lia].
  destruct E as [(-> & -> & -> & H)|H].
  - intros [= <- <- <-]. left. done.
  - intros [= <- <- <-]. by right.
Qed.

(** ** Bytes and little-endian integers *)

Lemma uint8_range b : (0 <= uint8 b < 256)%Z.
Proof. unfold uint8. pose proof (Byte.to_N_bounded b). lia. Qed.

Lemma byte_eqb_spec (a b : byte) : Byte.eqb a b = true <-> a = b.
Proof. split; [apply Byte.byte_dec_bl | apply Byte.byte_dec_lb]. Qed.

Lemma byte_eqb_neq (a b : byte) : Byte.eqb a b = false <-> a <> b.
Proof.
  split; [apply Byte.eqb_false|].
  intros H. destruct (Byte.eqb a b) eqn:E; [|done].
  by apply byte_eqb_spec in E.
Qed.

(** Or-ing a value below [2^n] with one shifted left by [n] adds them. *)
Lemma lor_shiftl_add a b n :
  (0 <= n)%Z -> (0 <= a < 2 ^ n)%Z ->
  Z.lor a (Z.shiftl b n) = (a + b * 2 ^ n)%Z.
Proof.
  intros Hn Ha.
  assert (Z.land a (Z.shiftl b n) = 0%Z) as Hland.
  { apply Z.bits_inj'. intros m Hm.
    rewrite Z.land_spec, Z.bits_0.
    destruct (Z.lt_ge_cases m n) as [Hlt|Hge].
    - rewrite Z.shiftl_spec_low by done. apply andb_false_r.
    - rewrite <- (Z.mod_small a (2 ^ n)) by done.
      rewrite Z.mod_pow2_bits_high by lia. done. }
  pose proof (Z.add_lor_land a (Z.shiftl b n)) as H.
  rewrite Hland, Z.add_0_r in H. rewrite H.
  by rewrite Z.shiftl_mul_pow2.
Qed.

Lemma LittleEndian_Uint16_sum b :
  binary.LittleEndian_Uint16 b
  = (binary.byte_at b 0 + 2 ^ 8 * binary.byte_at b 1)%Z.
Proof.
  unfold binary.LittleEndian_Uint16, binary.byte_at.
  pose proof (uint8_range (nth 0 b NUL)).
  rewrite lor_shiftl_add by lia. lia.
Qed.

Lemma LittleEndian_Uint32_sum b :
  binary.LittleEndian_Uint32 b
  = (binary.byte_at b 0 + 2 ^ 8 * binary.byte_at b 1
     + 2 ^ 16 * binary.byte_at b 2 + 2 ^ 24 * binary.byte_at b 3)%Z.
Proof.
  unfold binary.LittleEndian_Uint32, binary.byte_at.
  pose proof (uint8_range (nth 0 b NUL)).
  pose proof (uint8_range (nth 1 b NUL)).
  pose proof (uint8_range (nth 2 b NUL)).
  rewrite (lor_shiftl_add _ _ 8) by lia.
  rewrite (lor_shiftl_add _ _ 16) by lia.
  rewrite (lor_shiftl_add _ _ 24) by lia. lia.
Qed.

Lemma LittleEndian_Uint16_range b :
  (0 <= binary.LittleEndian_Uint16 b < 2 ^ 16)%Z.
Proof.
  rewrite LittleEndian_Uint16_sum. unfold binary.byte_at.
  pose proof (uint8_range (nth 0 b NUL)).
  pose proof (uint8_range (nth 1 b NUL)). lia.
Qed.

Lemma LittleEndian_Uint32_range b :
  (0 <= binary.LittleEndian_Uint32 b < 2 ^ 32)%Z.
Proof.
  rewrite LittleEndian_Uint32_sum. unfold binary.byte_at.
  pose proof (uint8_range (nth 0 b NUL)).
  pose proof (uint8_range (nth 1 b NUL)).
  pose proof (uint8_range (nth 2 b NUL)).
  pose proof (uint8_range (nth 3 b NUL)). lia.
Qed.

(** The offset [getString] computes: bytes 4..7, least significant
    first. *)
Lemma name_offset_sum name :
  coff.name_offset name
  = (uint8 (coff.c4 name) + 2 ^ 8 * uint8 (coff.c5 name)
     + 2 ^ 16 * uint8 (coff.c6 name) + 2 ^ 24 * uint8 (coff.c7 name))%Z.
Proof.
  unfold coff.name_offset, uint32.
  pose proof (uint8_range (coff.c4 name)).
  pose proof (uint8_range (coff.c5 name)).
  pose proof (uint8_range (coff.c6 name)).
  pose proof (uint8_range (coff.c7 name)).
  rewrite !Z.shiftl_mul_pow2 by lia.
  rewrite !Z.mod_small by lia.
  rewrite Z.pow_0_r, Z.mul_1_r.
  rewrite <- !Z.shiftl_mul_pow2 by lia.
  rewrite Z.lor_comm, (Z.lor_comm _ (Z.shiftl (uint8 (coff.c5 name)) 8)).
  rewrite (Z.lor_comm (Z.shiftl _ 24)).
  rewrite Z.lor_assoc, Z.lor_assoc.
  rewrite (lor_shiftl_add _ _ 8) by lia.
  rewrite (lor_shiftl_add _ _ 16) by lia.
  rewrite (lor_shiftl_add _ _ 24) by lia. lia.
Qed.

Lemma name_offset_range name : (0 <= coff.name_offset name < 2 ^ 32)%Z.
Proof.
  rewrite name_offset_sum.
  pose proof (uint8_range (coff.c4 name)).
  pose proof (uint8_range (coff.c5 name)).
  pose proof (uint8_range (coff.c6 name)).
  pose proof (uint8_range (coff.c7 name)). lia.
Qed.

Lemma is_indirect_spec name :
  coff.is_indirect name = true
  <-> coff.c0 name = NUL /\ coff.c1 name = NUL
      /\ coff.c2 name = NUL /\ coff.c3 name = NUL.
Proof.
  unfold coff.is_indirect. rewrite !andb_true_iff, !byte_eqb_spec. tauto.
Qed.

(** ** [ReadBytes] and [trimRightByte] *)

Lemma ReadBytes_found s d rest :
  d ∉ s -> ReadBytes (s ++ d :: rest) d = (s ++ [d], None).
Proof.
  induction s as [|x s IH]; intros Hd; simpl.
  - by rewrite (Byte.byte_dec_lb eq_refl).
  - apply not_elem_of_cons in Hd as [Hx Hs].
    assert (Byte.eqb x d = false) as -> by (apply byte_eqb_neq; congruence).
    by rewrite IH.
Qed.

Lemma ReadBytes_missing l d :
  d ∉ l -> ReadBytes l d = (l, Some EOF).
Proof.
  induction l as [|x l IH]; intros Hd; simpl; [done|].
  apply not_elem_of_cons in Hd as [Hx Hs].
  assert (Byte.eqb x d = false) as -> by (apply byte_eqb_neq; congruence).
  by rewrite IH.
Qed.

Lemma ReadBytes_error l d bs e :
  ReadBytes l d = (bs, Some e) -> e = EOF /\ d ∉ l.
Proof.
  revert bs. induction l as [|x l IH]; intros bs; simpl.
  - intros [= <- <-]. split; [done | apply not_elem_of_nil].
  - destruct (Byte.eqb x d) eqn:E; [done|].
    destruct (ReadBytes l d) as [bs' e'] eqn:E'. intros [= <- ->].
    destruct (IH _ eq_refl) as [-> Hl]. split; [done|].
    apply not_elem_of_cons. split; [|done].
    apply byte_eqb_neq in E. congruence.
Qed.

(** [trimRightByte] removes a run of [c] at the right end, the whole run,
    and nothing else. *)
Lemma trimRightByte_spec l c :
  exists k, l = trimRightByte l c ++ replicate k c
            /\ last (trimRightByte l c) <> Some c.
Proof.
  induction l as [|b l (k & Hl & Hlast)]; simpl.
  - exists 0. done.
  - destruct (trimRightByte l c) as [|t ts] eqn:E.
    + destruct (Byte.eqb b c) eqn:Hb.
      * apply byte_eqb_spec in Hb as ->. exists (S k). simpl in *. by rewrite Hl at 1.
      * apply byte_eqb_neq in Hb. exists k. simpl in *. split; [by rewrite Hl at 1|].
        congruence.
    + exists k. split; [simpl; by rewrite Hl at 1|]. by rewrite last_cons_cons.
Qed.

(** ** Name resolution *)

(** X26.  An offset past the end of the string table makes the slice
    expression panic. *)
Lemma getString_out_of_range stringTable name :
  coff.is_indirect name = true ->
  (Z.of_nat (length stringTable) < coff.name_offset name)%Z ->
  coff.getString stringTable name = Panics "slice bounds out of range".
Proof.
  intros Hi Hlt. unfold coff.getString. rewrite Hi.
  destruct (Z.ltb_spec (Z.of_nat (length stringTable)) (coff.name_offset name));
    [done | lia].
Qed.

(** An offset inside the table with no NUL after it is reported as
    [io.EOF]. *)
Lemma getString_unterminated stringTable name :
  coff.is_indirect name = true ->
  (coff.name_offset name <= Z.of_nat (length stringTable))%Z ->
  NUL ∉ drop (Z.to_nat (coff.name_offset name)) stringTable ->
  coff.getString stringTable name = Returns (""%string, Some EOF).
Proof.
  intros Hi Hle Hnul. unfold coff.getString. rewrite Hi.
  destruct (Z.ltb_spec (Z.of_nat (length stringTable)) (coff.name_offset name));
    [lia|].
  by rewrite ReadBytes_missing.
Qed.

(** Every error [getString] returns is [io.EOF]. *)
Lemma getString_error stringTable name s e :
  coff.getString stringTable name = Returns (s, Some e) -> e = EOF.
Proof.
  unfold coff.getString.
  destruct (coff.is_indirect name); [|done].
  destruct (_ <? _)%Z; [done|].
  destruct (ReadBytes _ NUL) as [bs [e'|]] eqn:E; [|done].
  intros [= <- <-]. by apply ReadBytes_error in E as [? _].
Qed.

Lemma getString_fuel stringTable name :
  coff.getString stringTable name <> OutOfFuel.
Proof.
  unfold coff.getString.
  destruct (coff.is_indirect name); [|done].
  destruct (_ <? _)%Z; [done|].
  by destruct (ReadBytes _ NUL) as [bs [e'|]].
Qed.

(** C3.  Name resolution over an 8-byte field.  When bytes 0..3 are all
    zero, bytes 4..7 are an offset, least significant byte first, and the
    name is the run of non-NUL bytes found at that offset of the string
    table, up to but without the NUL that ends it.  Otherwise the name is
    the field itself without its trailing NUL bytes: the field is the name
    followed by NUL bytes only, and the name does not end in NUL, so NUL
    bytes inside the name are kept.  The bytes ["abc\0\0\0\0\0"] resolve
    to ["abc"]. *)
Theorem getString_resolves_name (stringTable : list byte) (name : coff.chars8) :
  (coff.c0 name = NUL /\ coff.c1 name = NUL
   /\ coff.c2 name = NUL /\ coff.c3 name = NUL ->
   forall s rest,
     drop (Z.to_nat (uint8 (coff.c4 name) + 2 ^ 8 * uint8 (coff.c5 name)
                     + 2 ^ 16 * uint8 (coff.c6 name)
                     + 2 ^ 24 * uint8 (coff.c7 name))) stringTable
     = s ++ NUL :: rest ->
     NUL ∉ s ->
     coff.getString stringTable name = Returns (string_of_list_byte s, None))
  /\ (~ (coff.c0 name = NUL /\ coff.c1 name = NUL
         /\ coff.c2 name = NUL /\ coff.c3 name = NUL) ->
      exists t k,
        coff.chars_slice name = t ++ replicate k NUL
        /\ last t <> Some NUL
        /\ coff.getString stringTable name
           = Returns (string_of_list_byte t, None))
  /\ coff.getString stringTable
       (coff.chars_of (list_byte_of_string "abc" ++ replicate 5 NUL))
     = Returns ("abc"%string, None).
Proof.
  split; [|split].
  - intros Hz s rest Hdrop Hs. apply is_indirect_spec in Hz.
    rewrite <- name_offset_sum in Hdrop.
    unfold coff.getString. rewrite Hz.
    destruct (Z.ltb_spec (Z.of_nat (length stringTable)) (coff.name_offset name))
      as [Hlt|_].
    + rewrite drop_ge in Hdrop by lia. by destruct s.
    + rewrite Hdrop, ReadBytes_found by done.
      rewrite length_app; simpl.
      replace (length s + 1 - 1) with (length s) by lia.
      by rewrite take_app_length.
  - intros Hnz. rewrite <- is_indirect_spec in Hnz.
    apply not_true_is_false in Hnz.
    destruct (trimRightByte_spec (coff.chars_slice name) NUL) as (k & Hk & Hlast).
    exists (trimRightByte (coff.chars_slice name) NUL), k.
    split; [done|]. split; [done|].
    unfold coff.getString, TrimRight. rewrite Hnz.
    by rewrite list_byte_of_string_of_list_byte.
  - reflexivity.
Qed.

(** The name ["main"], stored at offset 4 of a string table. *)
Lemma getString_resolves_name_witness :
  coff.getString (le32 9 ++ list_byte_of_string "main" ++ [NUL])
                 (coff.chars_of (table_name 4))
  = Returns ("main"%string, None).
Proof.
  apply (proj1 (getString_resolves_name
                  (le32 9 ++ list_byte_of_string "main" ++ [NUL])
                  (coff.chars_of (table_name 4))))
    with (s := list_byte_of_string "main") (rest := []).
  - repeat split; reflexivity.
  - reflexivity.
  - intros H. vm_compute in H. repeat (apply elem_of_cons in H as [H|H]; [discriminate|]).
    by apply elem_of_nil in H.
Defined.

(** C5.  A name field that refers past the end of the string table: the
    string table is empty and the field holds offset 1.  [getString]
    panics on the slice expression; no error value is returned.  A
    reference inside the table that no NUL ends is reported as [io.EOF]. *)
Theorem getString_offset_past_table_panics :
  coff.is_indirect (coff.chars_of (table_name 1)) = true
  /\ coff.name_offset (coff.chars_of (table_name 1)) = 1%Z
  /\ coff.getString [] (coff.chars_of (table_name 1))
     = Panics "slice bounds out of range"
  /\ coff.getString (list_byte_of_string "ab") (coff.chars_of (table_name 1))
     = Returns (""%string, Some EOF).
Proof. repeat split; reflexivity. Qed.

(** ** One iteration of the symbol loop *)

Lemma aux_count_byte r o :
  aux_count r o = uint8 (nth 9 (bytes_at r (o + 8) 10) NUL).
Proof.
  unfold aux_count. change (binary.Size coff.symbol_fields) with 10.
  generalize (bytes_at r (o + 8) 10). intros b.
  cbn [binary.decode coff.symbol_fields binary.F binary.Blank binary.blank
       binary.fkind binary.decode_kind binary.sizeof app nth].
  unfold binary.byte_at. by rewrite !nth_skipn.
Qed.

Lemma symbol_at_in_range r o name : in_range (symbol_at r o name).
Proof.
  split.
  - apply LittleEndian_Uint32_range.
  - unfold symbol_at; cbn [coff.AuxEntry]. intros aux.
    destruct (aux_count r o =? 1)%Z; [|done]. intros [= <-].
    apply LittleEndian_Uint32_range.
Qed.

Lemma slots_symbol_at r o name :
  slots (symbol_at r o name) = if (aux_count r o =? 1)%Z then 2 else 1.
Proof.
  unfold slots, symbol_at; cbn [coff.AuxEntry].
  by destruct (aux_count r o =? 1)%Z.
Qed.

(** What one iteration can do, read off its result. *)
Lemma symbolBody_inv r o i st file :
  (0 <= o)%Z ->
  match coff.symbolBody i st file (mainR r o) with
  | inl (Returns (Some f, Some e)) => f = file /\ truncated_read e
  | inl (Returns _) => False
  | inl (Panics _) => True
  | inl OutOfFuel => False
  | inr (i', f', sr') =>
      exists name,
        coff.getString st (coff.chars_of (bytes_at r o 8)) = Returns (name, None)
        /\ f' = coff.set_symbols file (coff.symbols file ++ [symbol_at r o name])
        /\ if (aux_count r o =? 1)%Z
           then i' = uint32 (i - 1) /\ sr' = mainR r (o + 36)
                /\ (o + 36 <= Z.of_nat (length r))%Z
           else i' = i /\ sr' = mainR r (o + 18)
                /\ (o + 18 <= Z.of_nat (length r))%Z
  end.
Proof.
  intros Ho. unfold coff.symbolBody.
  destruct (coff.read_chars (mainR r o)) as [[sr1 ch] e1] eqn:E1.
  apply read_chars_main_inv in E1; [|done].
  destruct E1 as [(-> & -> & -> & H1) | [-> | ->]];
    [|split; [done | by left]|split; [done | by right]].
  destruct (binary.Read (mainR r (o + 8)) coff.symbol_fields)
    as [[sr2 sym] e2] eqn:E2.
  apply binary_Read_main_inv in E2; [|lia|cbn; lia].
  change (binary.Size coff.symbol_fields) with 10 in E2.
  destruct E2 as [(-> & -> & -> & H2) | (_ & [-> | ->])];
    [|split; [done | by left]|split; [done | by right]].
  destruct (coff.getString st (coff.chars_of (bytes_at r o 8)))
    as [[name [e|]]|msg|] eqn:G.
  - apply getString_error in G as ->. split; [done | by left].
  - change (nth 3 (binary.decode coff.symbol_fields (bytes_at r (o + 8) 10)) 0%Z)
      with (aux_count r o).
    replace (o + 8 + Z.of_nat 10)%Z with (o + 18)%Z in * by lia.
    destruct (Z.eqb_spec (aux_count r o) 1) as [Haux|Haux].
    + destruct (binary.Read (mainR r (o + 18)) coff.AuxiliaryEntry_fields)
        as [[sr3 aux] e3] eqn:E3.
      apply binary_Read_main_inv in E3; [|lia|cbn; lia].
      change (binary.Size coff.AuxiliaryEntry_fields) with 18 in E3.
      destruct E3 as [(-> & -> & -> & H3) | (_ & [-> | ->])];
        [|split; [done | by left]|split; [done | by right]].
      exists name. split; [done|]. split.
      * unfold symbol_at. rewrite (proj2 (Z.eqb_eq _ _) Haux).
        unfold aux_at. repeat f_equal; lia.
      * split; [done|]. split; [f_equal|]; lia.
    + exists name. split; [done|]. split.
      * unfold symbol_at. by rewrite (proj2 (Z.eqb_neq _ _) Haux).
      * split; [done|]. split; [f_equal|]; lia.
  - done.
  - by apply getString_fuel in G.
Qed.

(** An iteration over a slot that is there, with a name that resolves. *)
Lemma symbolBody_ok r o i st file name :
  (0 <= o)%Z ->
  (o + 36 <= io.maxint64)%Z ->
  (o + (if (aux_count r o =? 1)%Z then 36 else 18) <= Z.of_nat (length r))%Z ->
  coff.getString st (coff.chars_of (bytes_at r o 8)) = Returns (name, None) ->
  coff.symbolBody i st file (mainR r o)
  = inr (if (aux_count r o =? 1)%Z then uint32 (i - 1) else i,
         coff.set_symbols file (coff.symbols file ++ [symbol_at r o name]),
         mainR r (o + (if (aux_count r o =? 1)%Z then 36 else 18))).
Proof.
  intros Ho Hm Hlen G.
  assert (o + 18 <= Z.of_nat (length r))%Z as H18
    by (destruct (aux_count r o =? 1)%Z; lia).
  unfold coff.symbolBody.
  rewrite read_chars_main_ok by lia.
  rewrite binary_Read_main_ok
    by (change (binary.Size coff.symbol_fields) with 10; lia).
  rewrite G. change (binary.Size coff.symbol_fields) with 10.
  change (nth 3 (binary.decode coff.symbol_fields (bytes_at r (o + 8) 10)) 0%Z)
    with (aux_count r o).
  replace (o + 8 + Z.of_nat 10)%Z with (o + 18)%Z in * by lia.
  destruct (Z.eqb_spec (aux_count r o) 1) as [Haux|Haux].
  - rewrite binary_Read_main_ok
      by (change (binary.Size coff.AuxiliaryEntry_fields) with 18; lia).
    change (binary.Size coff.AuxiliaryEntry_fields) with 18.
    replace (o + 18 + Z.of_nat 18)%Z with (o + 36)%Z by lia.
    unfold symbol_at. rewrite (proj2 (Z.eqb_eq _ _) Haux). reflexivity.
  - unfold symbol_at. by rewrite (proj2 (Z.eqb_neq _ _) Haux).
Qed.

(** ** The symbol loop *)

Lemma entries_consumed_cons s l :
  entries_consumed (s :: l) = slots s + entries_consumed l.
Proof. reflexivity. Qed.

Lemma uint32_small x : (0 <= x < 2 ^ 32)%Z -> uint32 x = x.
Proof. intros H. unfold uint32. by apply Z.mod_small. Qed.

Lemma uint32_range x : (0 <= uint32 x < 2 ^ 32)%Z.
Proof. unfold uint32. apply Z.mod_pos_bound. lia. Qed.

(** The loop never runs out of iterations when it is given more than the
    number of bytes left in the source. *)
Lemma readSymbols_fuel r fuel : forall i st file o,
  (0 <= o)%Z ->
  (Z.max 0 (Z.of_nat (length r) - o) < Z.of_nat fuel)%Z ->
  coff.readSymbols fuel i st file (mainR r o) <> inl OutOfFuel.
Proof.
  induction fuel as [|fuel IH]; intros i st file o Ho Hfuel; simpl.
  - lia.
  - destruct (0 <? i)%Z; [|done].
    pose proof (symbolBody_inv r o i st file Ho) as Hbody.
    destruct (coff.symbolBody i st file (mainR r o))
      as [[[[f|] [e|]]|msg|]|[[i' f'] sr']]; try done.
    destruct Hbody as (name & _ & _ & Hcase).
    destruct (aux_count r o =? 1)%Z;
      destruct Hcase as (_ & -> & Hlen); apply IH; lia.
Qed.

(** The loop invariant.  When the loop runs to its end, it has appended
    the symbols of the slots it went through, the cursor stands after the
    last of these slots, and the number of slots equals the declared
    count modulo [2^32]. *)
Lemma readSymbols_inv r fuel : forall i st file o,
  (0 <= o)%Z -> (0 <= i < 2 ^ 32)%Z ->
  match coff.readSymbols fuel i st file (mainR r o) with
  | inl (Returns (Some f, Some e)) =>
      coff.Hdr f = coff.Hdr file /\ truncated_read e
  | inl (Returns _) => False
  | inl _ => True
  | inr (f', sr') =>
      exists new,
        f' = coff.set_symbols file (coff.symbols file ++ new)
        /\ Forall in_range new
        /\ sr' = mainR r (o + 18 * Z.of_nat (entries_consumed new))
        /\ (Z.of_nat (entries_consumed new) mod 2 ^ 32 = i)%Z
        /\ (new <> [] ->
            (o + 18 * Z.of_nat (entries_consumed new) <= Z.of_nat (length r))%Z)
  end.
Proof.
  assert (forall i file o, (0 <= i < 2 ^ 32)%Z -> (i <= 0)%Z ->
            exists new,
              file = coff.set_symbols file (coff.symbols file ++ new)
              /\ Forall in_range new
              /\ mainR r o = mainR r (o + 18 * Z.of_nat (entries_consumed new))
              /\ (Z.of_nat (entries_consumed new) mod 2 ^ 32 = i)%Z
              /\ (new <> [] ->
                  (o + 18 * Z.of_nat (entries_consumed new)
                   <= Z.of_nat (length r))%Z)) as Hdone.
  { intros i file o Hi Hz. exists []. rewrite app_nil_r.
    split; [by destruct file|]. split; [constructor|].
    change (Z.of_nat (entries_consumed [])) with 0%Z.
    split; [f_equal; lia|]. split; [rewrite Zmod_0_l; lia | done]. }
  induction fuel as [|fuel IH]; intros i st file o Ho Hi; simpl.
  - destruct (Z.ltb_spec 0 i); [done|]. by apply Hdone.
  - destruct (Z.ltb_spec 0 i) as [Hpos|Hz].
    2:{ by apply Hdone. }
    pose proof (symbolBody_inv r o i st file Ho) as Hbody.
    destruct (coff.symbolBody i st file (mainR r o))
      as [[[[f|] [e|]]|msg|]|[[i' f'] sr']]; try done.
    { by destruct Hbody as [-> ?]. }
    destruct Hbody as (name & _ & -> & Hcase).
    pose proof (symbol_at_in_range r o name) as Hrange.
    pose proof (slots_symbol_at r o name) as Hslots.
    destruct (aux_count r o =? 1)%Z; destruct Hcase as (-> & -> & Hlen).
    + specialize (IH (uint32 (uint32 (i - 1) - 1)) st
                     (coff.set_symbols file
                        (coff.symbols file ++ [symbol_at r o name]))
                     (o + 36)%Z ltac:(lia) (uint32_range _)).
      destruct (coff.readSymbols fuel _ st _ (mainR r (o + 36)))
        as [[[[f|] [e|]]|msg|]|[f' sr']]; try done.
      destruct IH as (new & -> & Hnew & -> & Hmod & Hfit).
      exists (symbol_at r o name :: new). simpl.
      rewrite <- app_assoc. split; [done|]. split; [by constructor|].
      rewrite entries_consumed_cons, Hslots.
      split; [f_equal; lia|]. split.
      * unfold uint32 in Hmod. change (2 ^ 32)%Z with 4294967296%Z in *.
        rewrite Zminus_mod_idemp_l in Hmod.
        rewrite Nat2Z.inj_add, Zplus_mod, Hmod, <- Zplus_mod.
        rewrite Z.mod_small; lia.
      * intros _. destruct new as [|s new];
          [change (entries_consumed []) with 0; lia|].
        specialize (Hfit ltac:(done)). lia.
    + specialize (IH (uint32 (i - 1)) st
                     (coff.set_symbols file
                        (coff.symbols file ++ [symbol_at r o name]))
                     (o + 18)%Z ltac:(lia) (uint32_range _)).
      destruct (coff.readSymbols fuel _ st _ (mainR r (o + 18)))
        as [[[[f|] [e|]]|msg|]|[f' sr']]; try done.
      destruct IH as (new & -> & Hnew & -> & Hmod & Hfit).
      exists (symbol_at r o name :: new). simpl.
      rewrite <- app_assoc. split; [done|]. split; [by constructor|].
      rewrite entries_consumed_cons, Hslots.
      split; [f_equal; lia|]. split.
      * unfold uint32 in Hmod. change (2 ^ 32)%Z with 4294967296%Z in *.
        rewrite Nat2Z.inj_add, Zplus_mod, Hmod, <- Zplus_mod.
        rewrite Z.mod_small; lia.
      * intros _. destruct new as [|s new];
          [change (entries_consumed []) with 0; lia|].
        specialize (Hfit ltac:(done)). lia.
Qed.

(** X25.  A loop entered with the three entries of the scenario: the first
    symbol has one auxiliary record, the second has none.  The loop goes
    through exactly three slots (the cursor ends 54 bytes further) and
    appends exactly two symbols, the first with its auxiliary record. *)
Lemma readSymbols_three_entries r o st file fuel name1 name2 :
  (0 <= o)%Z ->
  (o + 72 <= io.maxint64)%Z ->
  (o + 54 <= Z.of_nat (length r))%Z ->
  aux_count r o = 1%Z ->
  aux_count r (o + 36) <> 1%Z ->
  coff.getString st (coff.chars_of (bytes_at r o 8)) = Returns (name1, None) ->
  coff.getString st (coff.chars_of (bytes_at r (o + 36) 8))
  = Returns (name2, None) ->
  coff.readSymbols (S (S fuel)) 3 st file (mainR r o)
  = inr (coff.set_symbols file
           (coff.symbols file
              ++ [symbol_at r o name1; symbol_at r (o + 36) name2]),
         mainR r (o + 54))
  /\ coff.AuxEntry (symbol_at r o name1) = Some (aux_at r (o + 18))
  /\ coff.AuxEntry (symbol_at r (o + 36) name2) = None.
Proof.
  intros Ho Hm Hlen Ha1 Ha2 G1 G2.
  apply Z.eqb_eq in Ha1. apply Z.eqb_neq in Ha2.
  split; [|split].
  - cbn [coff.readSymbols]. change (0 <? 3)%Z with true. cbn iota.
    rewrite (symbolBody_ok r o 3 st file name1);
      [|lia|lia|rewrite Ha1; lia|done].
    rewrite Ha1. change (uint32 (uint32 (3 - 1) - 1)) with 1%Z.
    change (0 <? 1)%Z with true. cbn iota.
    rewrite (symbolBody_ok r (o + 36) 1 st _ name2);
      [|lia|lia|rewrite Ha2; lia|done].
    rewrite Ha2. change (uint32 (1 - 1)) with 0%Z.
    replace (o + 36 + 18)%Z with (o + 54)%Z by lia.
    assert (forall f sr, coff.readSymbols fuel 0 st f sr = inr (f, sr)) as ->
      by (by destruct fuel).
    unfold coff.set_symbols; cbn [coff.symbols coff.Hdr coff.OptHdr coff.Sections].
    by rewrite <- app_assoc.
  - unfold symbol_at; cbn [coff.AuxEntry]. by rewrite Ha1.
  - unfold symbol_at; cbn [coff.AuxEntry]. by rewrite Ha2.
Qed.

(** ** One iteration of the section loop, and the loop *)

Lemma sectionBody_inv r offset i st file :
  (0 <= offset)%Z ->
  match coff.sectionBody i r st file (mainR r offset) offset with
  | inl (Returns (Some f, Some e)) => f = file /\ truncated_read e
  | inl (Returns _) => False
  | inl (Panics _) => True
  | inl OutOfFuel => False
  | inr (f', sr', offset') =>
      offset' = (offset + section_record_size)%Z
      /\ sr' = mainR r offset'
      /\ (offset' <= Z.of_nat (length r))%Z
      /\ coff.Hdr f' = coff.Hdr file
      /\ coff.OptHdr f' = coff.OptHdr file
      /\ coff.symbols f' = coff.symbols file
      /\ length (coff.Sections f') = length (coff.Sections file)
  end.
Proof.
  intros Ho. unfold coff.sectionBody.
  destruct (coff.read_chars (mainR r offset)) as [[sr1 ch] e1] eqn:E1.
  apply read_chars_main_inv in E1; [|done].
  destruct E1 as [(-> & -> & -> & H1) | [-> | ->]];
    [|split; [done | by left]|split; [done | by right]].
  destruct (binary.Read (mainR r (offset + 8)) coff.sectionHeader_fields)
    as [[sr2 hd] e2] eqn:E2.
  apply binary_Read_main_inv in E2; [|lia|cbn; lia].
  change (binary.Size coff.sectionHeader_fields) with 40 in *.
  change (binary.Size coff.chars_fields) with 8 in *.
  destruct E2 as [(-> & -> & -> & H2) | (_ & [-> | ->])];
    [|split; [done | by left]|split; [done | by right]].
  destruct (coff.getString st (coff.chars_of (bytes_at r offset 8)))
    as [[name [e|]]|msg|] eqn:G.
  - apply getString_error in G as ->. split; [done | by left].
  - change section_record_size with 48%Z.
    rewrite !Seek_main by lia.
    split; [lia|]. split; [f_equal; lia|]. split; [lia|].
    cbn. by rewrite length_insert.
  - done.
  - by apply getString_fuel in G.
Qed.



Lemma readSections_inv r st n : forall i file offset,
  (0 <= offset)%Z ->
  match coff.readSections n i r st file (mainR r offset) offset with
  | inl (Returns (Some f, Some e)) =>
      coff.Hdr f = coff.Hdr file /\ truncated_read e
  | inl (Returns _) => False
  | inl (Panics _) => True
  | inl OutOfFuel => False
  | inr (f', sr') =>
      coff.Hdr f' = coff.Hdr file
      /\ coff.OptHdr f' = coff.OptHdr file
      /\ length (coff.Sections f') = length (coff.Sections file)
      /\ (exists o', sr' = mainR r o')
      /\ (0 < n ->
          (offset + section_record_size * Z.of_nat n <= Z.of_nat (length r))%Z)
  end.
Proof.
  induction n as [|n IH]; intros i file offset Ho; simpl.
  - repeat split; try done; [by eexists | lia].
  - pose proof (sectionBody_inv r offset i st file Ho) as Hbody.
    destruct (coff.sectionBody i r st file (mainR r offset) offset)
      as [[[[f|] [e|]]|msg|]|[[f' sr'] offset']]; try done.
    { by destruct Hbody as [-> ?]. }
    destruct Hbody as (-> & -> & Hlen & Hh & Hopt & Hs & Hsec).
    change section_record_size with 48%Z in *.
    specialize (IH (S i) f' (offset + 48)%Z ltac:(lia)).
    destruct (coff.readSections n (S i) r st f' (mainR r (offset + 48))
                (offset + 48)) as [[[[f|] [e|]]|msg|]|[f'' sr'']]; try done.
    + destruct IH as [-> ?]. done.
    + destruct IH as (-> & -> & -> & Hsr & Hn). repeat split; try done.
      intros _. destruct n; lia.
Qed.


(** ** The decoder, phase by phase *)

(** Replace the record sizes and the reader's limit by their values, then
    decide the linear goal. *)
Ltac sizes :=
  change (binary.Size coff.FileHeader_fields) with 22 in *;
  change (binary.Size coff.OptionalFileHeader_fields) with 28 in *;
  change (binary.Size coff.chars_fields) with 8 in *;
  change (binary.Size coff.sectionHeader_fields) with 40 in *;
  change (binary.Size coff.symbol_fields) with 10 in *;
  change (binary.Size coff.AuxiliaryEntry_fields) with 18 in *;
  change section_record_size with 48%Z in *;
  change io.maxint64 with 9223372036854775807%Z in *;
  lia.

Lemma header_of_ranges r :
  (0 <= coff.NumSections (header_of r) < 2 ^ 16)%Z
  /\ (0 <= coff.SymbolTableStartAddress (header_of r) < 2 ^ 32)%Z
  /\ (0 <= coff.NumSymbolTableEntries (header_of r) < 2 ^ 32)%Z
  /\ (0 <= coff.OptionalFileHeaderSize (header_of r) < 2 ^ 16)%Z
  /\ (0 <= coff.TargetID (header_of r) < 2 ^ 16)%Z.
Proof.
  unfold header_of.
  repeat split;
    first [apply LittleEndian_Uint16_range | apply LittleEndian_Uint32_range].
Qed.

Lemma headers_end_range h :
  (22 <= headers_end h <= 50)%Z.
Proof.
  unfold headers_end.
  change (Z.of_nat (binary.Size coff.FileHeader_fields)) with 22%Z.
  change (Z.of_nat (binary.Size coff.OptionalFileHeader_fields)) with 28%Z.
  destruct (0 <? coff.OptionalFileHeaderSize h)%Z; lia.
Qed.

(** A source shorter than the file header. *)
Lemma NewFile_short_header r :
  length r < binary.Size coff.FileHeader_fields ->
  exists e,
    coff.NewFile r = Returns (Some coff.File_zero, Some e) /\ truncated_read e.
Proof.
  intros Hlen. unfold coff.NewFile. rewrite NewSectionReader_main.
  destruct (binary_Read_main_short r 0 coff.FileHeader_fields)
    as (s' & e & -> & He); [done|sizes|sizes|].
  by exists e.
Qed.

(** The target identifier is not a known one. *)
Lemma NewFile_invalid_id r :
  binary.Size coff.FileHeader_fields ≤ length r ->
  coff.IsValidTargetID (header_of r) = false ->
  coff.NewFile r = Returns (None, Some ErrInvalidTargetID).
Proof.
  intros Hlen Hid. unfold coff.NewFile. rewrite NewSectionReader_main.
  rewrite binary_Read_main_ok by sizes.
  cbn [coff.set_Hdr coff.Hdr]. fold (header_of r). by rewrite Hid.
Qed.

(** The source ends inside the optional header. *)
Lemma NewFile_short_optional r :
  binary.Size coff.FileHeader_fields ≤ length r ->
  coff.IsValidTargetID (header_of r) = true ->
  (Z.of_nat (length r) < headers_end (header_of r))%Z ->
  exists f e,
    coff.NewFile r = Returns (Some f, Some e)
    /\ truncated_read e /\ coff.Hdr f = header_of r.
Proof.
  intros Hlen Hid Hcut. unfold coff.NewFile. rewrite NewSectionReader_main.
  rewrite binary_Read_main_ok by sizes.
  cbn [coff.set_Hdr coff.Hdr]. fold (header_of r). rewrite Hid. cbn [negb].
  unfold headers_end in Hcut.
  destruct (0 <? coff.OptionalFileHeaderSize (header_of r))%Z; [|sizes].
  destruct (binary_Read_main_short r
              (0 + Z.of_nat (binary.Size coff.FileHeader_fields))
              coff.OptionalFileHeader_fields)
    as (s' & e & -> & He); [sizes|sizes|sizes|].
  eexists _, e. split; [reflexivity|]. done.
Qed.

(** Both headers are there: the decoder enters the section loop, then the
    symbol loop. *)
Lemma NewFile_body r :
  binary.Size coff.FileHeader_fields ≤ length r ->
  coff.IsValidTargetID (header_of r) = true ->
  (headers_end (header_of r) <= Z.of_nat (length r))%Z ->
  coff.NewFile r
  = match coff.readSections (Z.to_nat (coff.NumSections (header_of r))) 0 r
            (string_table r) (decoded_headers r)
            (mainR r (headers_end (header_of r))) (headers_end (header_of r))
    with
    | inl ret => ret
    | inr (file, sr) =>
        match coff.readSymbols (S (length r))
                (coff.NumSymbolTableEntries (coff.Hdr file)) (string_table r)
                (coff.set_symbols file [])
                (io.Seek sr (coff.SymbolTableStartAddress (coff.Hdr file)))
        with
        | inl ret => ret
        | inr (file, _) => Returns (Some file, None)
        end
    end.
Proof.
  intros Hlen Hid Hfit.
  destruct (header_of_ranges r) as (Hns & Hss & Hn & Hopt & _).
  unfold coff.NewFile. rewrite NewSectionReader_main.
  rewrite binary_Read_main_ok by sizes.
  cbn [coff.set_Hdr coff.Hdr]. fold (header_of r). rewrite Hid. cbn [negb].
  unfold decoded_headers, optional_header_of, string_table, headers_end in *.
  destruct (0 <? coff.OptionalFileHeaderSize (header_of r))%Z.
  - rewrite binary_Read_main_ok by sizes.
    unfold io.ReadAll.
    cbn [coff.set_OptHdr coff.set_Hdr coff.set_Sections coff.Hdr coff.OptHdr
         coff.Sections coff.symbols coff.File_zero].
    rewrite !Seek_main by sizes.
    rewrite advance_main, Seek_main by sizes.
    rewrite length_replicate. reflexivity.
  - unfold io.ReadAll.
    cbn [coff.set_OptHdr coff.set_Hdr coff.set_Sections coff.Hdr coff.OptHdr
         coff.Sections coff.symbols coff.File_zero].
    rewrite !Seek_main by sizes.
    rewrite advance_main, Seek_main by sizes.
    rewrite length_replicate, !Z.add_0_r. reflexivity.
Qed.

(** What [NewFile] does with a source whose file header is there and has
    a known target identifier.  A successful decode went through all
    the records the header declares, and the slots of the symbols it
    lists add up to the declared entry count modulo [2^32]. *)
Lemma NewFile_valid_inv r :
  binary.Size coff.FileHeader_fields ≤ length r ->
  coff.IsValidTargetID (header_of r) = true ->
  match coff.NewFile r with
  | Returns (Some f, None) =>
      coff.Hdr f = header_of r
      /\ coff.OptHdr f = optional_header_of r
      /\ length (coff.Sections f)
         = Z.to_nat (coff.NumSections (header_of r))
      /\ (sections_end (header_of r) <= Z.of_nat (length r))%Z
      /\ Forall in_range (coff.symbols f)
      /\ (Z.of_nat (entries_consumed (coff.symbols f)) mod 2 ^ 32
          = coff.NumSymbolTableEntries (header_of r))%Z
      /\ (coff.symbols f <> [] ->
          (coff.SymbolTableStartAddress (header_of r)
           + 18 * Z.of_nat (entries_consumed (coff.symbols f))
           <= Z.of_nat (length r))%Z)
  | Returns (Some f, Some e) => coff.Hdr f = header_of r /\ truncated_read e
  | Returns (None, _) => False
  | Panics _ => True
  | OutOfFuel => False
  end.
Proof.
  intros Hlen Hid.
  destruct (header_of_ranges r) as (Hns & Hss & Hn & Hopt & _).
  pose proof (headers_end_range (header_of r)) as Hhe.
  destruct (Z.le_gt_cases (headers_end (header_of r)) (Z.of_nat (length r)))
    as [Hfit|Hcut].
  2:{ destruct (NewFile_short_optional r Hlen Hid Hcut) as (f & e & -> & He & Hf).
      done. }
  rewrite NewFile_body by done.
  pose proof (readSections_inv r (string_table r)
                (Z.to_nat (coff.NumSections (header_of r))) 0
                (decoded_headers r) (headers_end (header_of r)) ltac:(lia))
    as Hsec.
  destruct (coff.readSections _ 0 r (string_table r) (decoded_headers r) _ _)
    as [[[[f|] [e|]]|msg|]|[f' sr']]; try done.
  destruct Hsec as (Hh & Ho & Hl & [o' ->] & Hend).
  cbn [decoded_headers coff.Hdr coff.OptHdr coff.Sections] in Hh, Ho, Hl.
  rewrite ?length_replicate in Hl.
  rewrite Hh, Seek_main by lia.
  pose proof (readSymbols_fuel r (S (length r))
                (coff.NumSymbolTableEntries (header_of r)) (string_table r)
                (coff.set_symbols f' [])
                (coff.SymbolTableStartAddress (header_of r))
                ltac:(lia) ltac:(lia)) as Hfuel.
  pose proof (readSymbols_inv r (S (length r))
                (coff.NumSymbolTableEntries (header_of r)) (string_table r)
                (coff.set_symbols f' [])
                (coff.SymbolTableStartAddress (header_of r))
                ltac:(lia) Hn) as Hsym.
  destruct (coff.readSymbols _ _ (string_table r) (coff.set_symbols f' []) _)
    as [[[[f|] [e|]]|msg|]|[f'' sr'']]; try done.
  { destruct Hsym as [-> ?]. done. }
  destruct Hsym as (new & -> & Hnew & _ & Hmod & Hfits).
  cbn [coff.set_symbols coff.Hdr coff.OptHdr coff.Sections coff.symbols app].
  repeat split; try done.
  unfold sections_end.
  destruct (Z.to_nat (coff.NumSections (header_of r))) eqn:En; [|lia].
  assert (coff.NumSections (header_of r) = 0%Z) as -> by lia. lia.
Qed.

(** X24.  The loops of [NewFile] end on every source: the section loop
    after [NumSections] iterations, and the symbol loop, also after its
    counter has wrapped around, since every iteration reads 18 bytes or
    more of the source or leaves the function.  So a run in which the
    runtime grants the allocation of the symbol slice returns or
    panics. *)
Lemma NewFile_total r : coff.NewFile r <> OutOfFuel.
Proof.
  destruct (le_lt_dec (binary.Size coff.FileHeader_fields) (length r)) as [H|H].
  - destruct (coff.IsValidTargetID (header_of r)) eqn:Hid.
    + pose proof (NewFile_valid_inv r H Hid). by destruct (coff.NewFile r).
    + by rewrite NewFile_invalid_id.
  - by destruct (NewFile_short_header r H) as (e & -> & _).
Qed.

(** ** The target identifier gate *)

Lemma IsValidTargetID_spec h :
  coff.IsValidTargetID h = true <-> coff.TargetID h ∈ known_target_ids.
Proof.
  unfold coff.IsValidTargetID, coff.targetIDMap, known_target_ids.
  generalize (coff.TargetID h). intros t.
  rewrite !elem_of_cons, elem_of_nil.
  pose (step := fun v : Z => decide (t = v)).
  destruct (step 0x97%Z) as [->|?];
    [rewrite lookup_insert_eq; tauto | rewrite lookup_insert_ne by done].
  destruct (step 0x98%Z) as [->|?];
    [rewrite lookup_insert_eq; tauto | rewrite lookup_insert_ne by done].
  destruct (step 0x99%Z) as [->|?];
    [rewrite lookup_insert_eq; tauto | rewrite lookup_insert_ne by done].
  destruct (step 0x9C%Z) as [->|?];
    [rewrite lookup_insert_eq; tauto | rewrite lookup_insert_ne by done].
  destruct (step 0x9D%Z) as [->|?];
    [rewrite lookup_insert_eq; tauto | rewrite lookup_insert_ne by done].
  destruct (step 0xA0%Z) as [->|?];
    [rewrite lookup_insert_eq; tauto | rewrite lookup_insert_ne by done].
  destruct (step 0xA1%Z) as [->|?];
    [rewrite lookup_insert_eq; tauto | rewrite lookup_insert_ne by done].
  rewrite lookup_empty. split; [done | intros H; exfalso; tauto].
Qed.

Lemma TargetID_bytes r :
  binary.Size coff.FileHeader_fields ≤ length r ->
  coff.TargetID (header_of r)
  = (uint8 (nth 20 r NUL) + 2 ^ 8 * uint8 (nth 21 r NUL))%Z.
Proof.
  intros _. unfold header_of.
  change (binary.Size coff.FileHeader_fields) with 22.
  cbn [binary.decode coff.FileHeader_fields binary.F binary.blank binary.fkind
       binary.decode_kind binary.sizeof app nth coff.FileHeader_of
       coff.TargetID].
  rewrite LittleEndian_Uint16_sum. unfold binary.byte_at, bytes_at.
  rewrite !nth_skipn, !nth_firstn. reflexivity.
Qed.

(** C1.  A source that holds a whole file header, whose target identifier
    is the 16-bit little-endian number at bytes 20 and 21.  When the
    identifier is none of the seven known values, [NewFile] returns
    [ErrInvalidTargetID] (and no file), whatever the other fields hold.
    When it is one of them, the check passes and decoding goes on: the
    result is not that error, and carries a file with this header. *)
Theorem NewFile_target_id_gate (r : list byte) :
  binary.Size coff.FileHeader_fields ≤ length r ->
  let tid := coff.TargetID (header_of r) in
  tid = (uint8 (nth 20 r NUL) + 2 ^ 8 * uint8 (nth 21 r NUL))%Z
  /\ (tid ∉ [0x0097; 0x0098; 0x0099; 0x009C; 0x009D; 0x00A0; 0x00A1]%Z ->
      coff.NewFile r = Returns (None, Some ErrInvalidTargetID))
  /\ (tid ∈ [0x0097; 0x0098; 0x0099; 0x009C; 0x009D; 0x00A0; 0x00A1]%Z ->
      coff.IsValidTargetID (header_of r) = true
      /\ forall file err,
          coff.NewFile r = Returns (file, err) ->
          err <> Some ErrInvalidTargetID
          /\ exists f, file = Some f /\ coff.Hdr f = header_of r).
Proof.
  intros Hlen tid. split; [by apply TargetID_bytes|]. split.
  - intros Hnot. apply NewFile_invalid_id; [done|].
    apply not_true_is_false. by rewrite IsValidTargetID_spec.
  - intros Hin. apply IsValidTargetID_spec in Hin as Hid. split; [done|].
    intros file err Hret.
    pose proof (NewFile_valid_inv r Hlen Hid) as Hinv. rewrite Hret in Hinv.
    destruct file as [f|]; [|done].
    destruct err as [e|].
    + destruct Hinv as [Hh [-> | ->]]; (split; [done | by exists f]).
    + destruct Hinv as [Hh _]. split; [done | by exists f].
Qed.

(** A header that is well-formed but for the identifier [0x0096]. *)
Lemma NewFile_target_id_gate_witness :
  coff.NewFile (header_bytes 0 22 0 0 0x96)
  = Returns (None, Some ErrInvalidTargetID).
Proof.
  assert (binary.Size coff.FileHeader_fields ≤ length (header_bytes 0 22 0 0 0x96))
    as Hlen by (vm_compute; lia).
  apply (proj1 (proj2 (NewFile_target_id_gate (header_bytes 0 22 0 0 0x96) Hlen))).
  vm_compute. intros H.
  repeat (apply elem_of_cons in H as [H|H]; [discriminate|]).
  by apply elem_of_nil in H.
Defined.

(** ** Failures and the returned file *)

(** C10.  [NewFile] returns a nil file exactly when it returns
    [ErrInvalidTargetID], which it does only for a header that was read
    in full and holds an unknown identifier.  Every other failure comes
    with a non-nil file: the zero file when the file header could not be
    read, a file with the decoded header otherwise; the error is the one
    of the read or the name resolution that failed. *)
Theorem NewFile_nil_file_iff_invalid_id (r : list byte) file err :
  coff.NewFile r = Returns (file, err) ->
  (file = None <-> err = Some ErrInvalidTargetID)
  /\ (file = None ->
      binary.Size coff.FileHeader_fields ≤ length r
      /\ coff.IsValidTargetID (header_of r) = false)
  /\ (forall e, err = Some e -> e <> ErrInvalidTargetID ->
      (e = EOF \/ e = ErrUnexpectedEOF)
      /\ exists f, file = Some f
         /\ (length r < binary.Size coff.FileHeader_fields -> f = coff.File_zero)
         /\ (binary.Size coff.FileHeader_fields ≤ length r ->
             coff.Hdr f = header_of r)).
Proof.
  intros Hret.
  destruct (le_lt_dec (binary.Size coff.FileHeader_fields) (length r)) as [H|H].
  - destruct (coff.IsValidTargetID (header_of r)) eqn:Hid.
    + pose proof (NewFile_valid_inv r H Hid) as Hinv. rewrite Hret in Hinv.
      destruct file as [f|]; [|done].
      split; [|split; [done|]].
      * split; [done|]. intros ->. by destruct Hinv as [_ [?|?]].
      * intros e -> Hne. destruct Hinv as [Hh He]. split; [done|].
        exists f. split; [done|]. split; [lia | done].
    + rewrite NewFile_invalid_id in Hret by done.
      injection Hret as <- <-. split; [done|]. split; [done|].
      intros e [= <-] Hne. done.
  - destruct (NewFile_short_header r H) as (e & He & Htr).
    rewrite He in Hret. injection Hret as <- <-.
    split; [|split; [done|]].
    + split; [done|]. intros [= ->]. by destruct Htr.
    + intros e' [= <-] _. split; [done|].
      exists coff.File_zero. split; [done|]. split; [done | lia].
Qed.

(** The source of [truncated_file]: a failure other than the identifier
    check, returned with a file that holds the decoded header. *)
Lemma NewFile_nil_file_iff_invalid_id_witness :
  exists f,
    coff.NewFile truncated_file = Returns (Some f, Some ErrUnexpectedEOF)
    /\ (Some f = None <-> Some ErrUnexpectedEOF = Some ErrInvalidTargetID).
Proof.
  assert (exists f, coff.NewFile truncated_file
                    = Returns (Some f, Some ErrUnexpectedEOF)) as [f Hf]
    by (eexists; vm_compute; reflexivity).
  exists f. split; [exact Hf|].
  exact (proj1 (NewFile_nil_file_iff_invalid_id truncated_file _ _ Hf)).
Defined.

(** ** Truncated sources *)











(** C8.  The source of [named_file] is a well-formed object file, whose
    first section is named through the string table at the end of the
    file.  Cut 20 bytes into its second section header, the source no
    longer holds the string table: the decoder reads the first section
    header, resolves its name at offset 4 of an empty table, and the
    slice expression of [getString] panics before the short read of the
    second section header is reached.  No error is returned.  The same
    cut of a file whose first section is named inline returns
    [io.ErrUnexpectedEOF]. *)
Theorem NewFile_truncated_section_header_panics :
  (exists f,
      coff.NewFile named_file = Returns (Some f, None)
      /\ (fun s => coff.Name (coff.Header s)) <$> omap id (coff.Sections f)
         = [".text:bootloader"%string; ".data"%string])
  /\ truncated_named_file = take 90 named_file
  /\ length truncated_named_file = 22 + 48 + 20
  /\ sections_end (header_of truncated_named_file) = (22 + 48 + 48)%Z
  /\ string_table truncated_named_file = []
  /\ coff.name_offset (section_name truncated_named_file 0) = 4%Z
  /\ coff.NewFile truncated_named_file = Panics "slice bounds out of range"
  /\ (exists f,
        coff.NewFile truncated_file = Returns (Some f, Some ErrUnexpectedEOF)).
Proof.
  split; [eexists; split; vm_compute; reflexivity|].
  split; [reflexivity|].
  repeat (split; [vm_compute; reflexivity|]).
  eexists. vm_compute. reflexivity.
Qed.

(** ** The symbol table and its auxiliary records *)

(** C2.  The source of [overrun_file] declares three symbol-table
    entries.  The first symbol has aux-count 1 and takes slots 1 and 2;
    the symbol in slot 3 has aux-count 1 as well.  Reading its auxiliary
    record takes the counter from 1 to 0, the post statement of the loop
    takes it from 0 to [2^32 - 1], and the loop goes on past the declared
    table: it lists three symbols, standing for five slots, and then
    fails at the end of the source with [io.EOF]. *)
Theorem NewFile_reads_past_declared_entries :
  coff.NumSymbolTableEntries (header_of overrun_file) = 3%Z
  /\ aux_count overrun_file 22 = 1%Z
  /\ uint32 (uint32 (1 - 1) - 1) = (2 ^ 32 - 1)%Z
  /\ exists f,
      coff.NewFile overrun_file = Returns (Some f, Some EOF)
      /\ coff.SymName <$> coff.symbols f = ["main"; "b"; "c"]%string
      /\ entries_consumed (coff.symbols f) = 5.
Proof.
  split; [reflexivity|]. split; [reflexivity|]. split; [reflexivity|].
  eexists. split; [vm_compute; reflexivity|]. split; reflexivity.
Qed.

(** The same table with a symbol in slot 3 that has no auxiliary record:
    [sample_file].  The decode succeeds with two symbols standing for
    three slots, the first with its auxiliary record. *)
Lemma NewFile_sample_file :
  exists f aux,
    coff.NewFile sample_file = Returns (Some f, None)
    /\ coff.SymName <$> coff.symbols f = ["main"; "a_long_symbol_name"]%string
    /\ coff.AuxEntry <$> coff.symbols f = [Some aux; None]
    /\ coff.AuxSize aux = 64%Z
    /\ entries_consumed (coff.symbols f) = 3.
Proof.
  eexists _, _. split; [vm_compute; reflexivity|]. repeat split; reflexivity.
Qed.

(** X23.  On every successful decode of a source shorter than [18 * 2^32]
    bytes, the slots of the symbols listed are exactly as many as the
    header declares. *)
Lemma NewFile_success_entries r f :
  (Z.of_nat (length r) < 18 * 2 ^ 32)%Z ->
  coff.NewFile r = Returns (Some f, None) ->
  Z.of_nat (entries_consumed (coff.symbols f))
  = coff.NumSymbolTableEntries (coff.Hdr f).
Proof.
  intros Hsmall Hret.
  destruct (le_lt_dec (binary.Size coff.FileHeader_fields) (length r)) as [H|H].
  2:{ destruct (NewFile_short_header r H) as (e & He & _). congruence. }
  destruct (coff.IsValidTargetID (header_of r)) eqn:Hid.
  2:{ rewrite NewFile_invalid_id in Hret by done. done. }
  pose proof (NewFile_valid_inv r H Hid) as Hinv. rewrite Hret in Hinv.
  destruct Hinv as (-> & _ & _ & _ & _ & Hmod & Hfit).
  destruct (header_of_ranges r) as (_ & Hss & _).
  rewrite <- Hmod. symmetry. apply Z.mod_small.
  destruct (coff.symbols f) as [|s l]; [done|].
  specialize (Hfit ltac:(done)). lia.
Qed.

(** ** Byte layout *)



(** ** The dispatcher *)

(** The loop that fills the unified symbols computes [unified] at every
    index. *)
Lemma copy_coff_symbols_spec rest : forall pre acc,
  length acc = length pre ->
  debug.copy_coff_symbols (length rest) (length pre) (pre ++ rest)
    (acc ++ replicate (length rest) debug.Symbol_zero)
  = acc ++ (unified <$> rest).
Proof.
  induction rest as [|s rest IH]; intros pre acc Hlen; [done|].
  cbn [length debug.copy_coff_symbols].
  rewrite lookup_app_r, Nat.sub_diag by done. cbn [lookup list_lookup].
  assert (forall f (l : list debug.Symbol),
            alter f (length pre) (acc ++ l) = acc ++ alter f 0 l) as Halter.
  { intros f l. rewrite <- Hlen, <- (Nat.add_0_r (length acc)).
    apply alter_app_r. }
  assert (debug.copy_coff_symbols (length rest) (S (length pre))
            (pre ++ s :: rest)
            (acc ++ unified s :: replicate (length rest) debug.Symbol_zero)
          = acc ++ unified s :: (unified <$> rest)) as Hnext.
  { specialize (IH (pre ++ [s]) (acc ++ [unified s])).
    rewrite !length_app, <- !app_assoc in IH. simpl in IH.
    rewrite !Nat.add_1_r in IH. apply IH. lia. }
  cbn [replicate]. rewrite !Halter.
  destruct (coff.AuxEntry s) as [aux|] eqn:Haux.
  - rewrite Halter. cbn [alter list_alter]. rewrite fmap_cons, <- Hnext.
    unfold unified. by rewrite Haux.
  - cbn [alter list_alter]. rewrite fmap_cons, <- Hnext.
    unfold unified. by rewrite Haux.
Qed.

Lemma copy_coff_symbols_all symbols :
  debug.copy_coff_symbols
    (length (replicate (length symbols) debug.Symbol_zero)) 0 symbols
    (replicate (length symbols) debug.Symbol_zero)
  = unified <$> symbols.
Proof.
  rewrite length_replicate.
  exact (copy_coff_symbols_spec symbols [] [] eq_refl).
Qed.

Lemma uint64_small x : (0 <= x < 2 ^ 32)%Z -> uint64 x = x.
Proof. intros H. unfold uint64. apply Z.mod_small. lia. Qed.

(** The numbers of the symbols of a successful decode are in range. *)
Lemma NewFile_success_in_range r f :
  coff.NewFile r = Returns (Some f, None) -> Forall in_range (coff.symbols f).
Proof.
  intros Hret.
  destruct (le_lt_dec (binary.Size coff.FileHeader_fields) (length r)) as [H|H].
  2:{ destruct (NewFile_short_header r H) as (e & He & _). congruence. }
  destruct (coff.IsValidTargetID (header_of r)) eqn:Hid.
  2:{ rewrite NewFile_invalid_id in Hret by done. done. }
  pose proof (NewFile_valid_inv r H Hid) as Hinv. rewrite Hret in Hinv.
  by destruct Hinv as (_ & _ & _ & _ & ? & _).
Qed.

(** C6.  The dispatcher calls the ELF decoder first, and calls the COFF
    decoder only in a run in which the ELF decoder was called before it
    and returned an error.  When the ELF decoder returns a file, the
    COFF decoder is not called, and what is returned depends on the ELF
    file's [Symbols()]: when it succeeds, [NewFile] returns a file of
    type ELF without error, and [Open] returns that file, owning the
    open file; when it fails, [NewFile] returns the file of type ELF
    together with that error, and [Open] closes the open file and
    returns that error and no file. *)
Theorem NewFile_tries_elf_first
    (elf_NewFile : io.ReaderAt -> elf.File + error)
    (os_Open : string -> os.File + error) :
  (forall r, exists rest,
      (debug.NewFile elf_NewFile r).1 = debug.call_elf_NewFile :: rest)
  /\ (forall r,
        debug.call_coff_NewFile ∈ (debug.NewFile elf_NewFile r).1 ->
        (exists e, elf_NewFile r = inr e)
        /\ (debug.NewFile elf_NewFile r).1
           = [debug.call_elf_NewFile; debug.call_coff_NewFile])
  /\ (forall name,
        debug.call_coff_NewFile ∈ (debug.Open elf_NewFile os_Open name).1 ->
        exists file e,
          os_Open name = inl file /\ elf_NewFile (os.contents file) = inr e)
  /\ (forall r ef,
        elf_NewFile r = inl ef ->
        (debug.NewFile elf_NewFile r).1 = [debug.call_elf_NewFile]
        /\ exists f,
            (debug.NewFile elf_NewFile r).2
            = Returns (Some f, (elf.Symbols ef).2)
            /\ debug.Type_ f = debug.FileTypeELF)
  /\ (forall name file ef,
        os_Open name = inl file ->
        elf_NewFile (os.contents file) = inl ef ->
        match (elf.Symbols ef).2 with
        | None =>
            exists f,
              debug.Open elf_NewFile os_Open name
              = ([debug.call_elf_NewFile], Returns (Some f, None))
              /\ debug.Type_ f = debug.FileTypeELF
              /\ debug.closer f = Some file
        | Some err =>
            debug.Open elf_NewFile os_Open name
            = ([debug.call_elf_NewFile; debug.call_Close file],
               Returns (None, Some err))
        end).
Proof.
  assert (forall r,
            debug.call_coff_NewFile ∈ (debug.NewFile elf_NewFile r).1 ->
            (exists e, elf_NewFile r = inr e)
            /\ (debug.NewFile elf_NewFile r).1
               = [debug.call_elf_NewFile; debug.call_coff_NewFile]) as Hcoff.
  { intros r Hin. unfold debug.NewFile in *.
    destruct (elf_NewFile r) as [ef|e].
    - exfalso.
      destruct (elf.Symbols ef) as [symbols [err|]]; simpl in Hin;
        apply list_elem_of_singleton in Hin; discriminate.
    - split; [by exists e|].
      by destruct (coff.NewFile r) as [[[cf|] [err|]]|msg|]. }
  split; [|split; [exact Hcoff|split; [|split]]].
  - intros r. unfold debug.NewFile.
    destruct (elf_NewFile r) as [ef|e].
    + destruct (elf.Symbols ef) as [symbols [err|]]; by eexists.
    + destruct (coff.NewFile r) as [[[cf|] [err|]]|msg|]; by eexists.
  - intros name. unfold debug.Open.
    destruct (os_Open name) as [file|err] eqn:Hopen.
    2:{ simpl. intros Hin. by apply elem_of_nil in Hin. }
    intros Hin.
    assert (debug.call_coff_NewFile
              ∈ (debug.NewFile elf_NewFile (os.contents file)).1) as Hin'.
    { destruct (debug.NewFile elf_NewFile (os.contents file))
        as [log [[[df|] [err|]]|msg|]]; simpl in *; try done;
        apply elem_of_app in Hin as [Hin|Hin]; try done;
        apply list_elem_of_singleton in Hin; discriminate. }
    destruct (Hcoff _ Hin') as [[e He] _]. by exists file, e.
  - intros r ef Helf. unfold debug.NewFile. rewrite Helf.
    destruct (elf.Symbols ef) as [symbols [err|]]; (split; [done|]);
      eexists; (split; [reflexivity | done]).
  - intros name file ef Hopen Helf. unfold debug.Open, debug.NewFile.
    rewrite Hopen, Helf.
    destruct (elf.Symbols ef) as [symbols [err|]]; simpl; [done|].
    eexists. split; [reflexivity | done].
Qed.

(** With the stand-in decoder: [Open] on the path of [sample_elf], whose
    symbol table the ELF decoder reads. *)
Lemma NewFile_tries_elf_first_witness :
  exists f,
    debug.Open known_elf_NewFile elf_files_Open "prog.elf"
    = ([debug.call_elf_NewFile], Returns (Some f, None))
    /\ debug.Type_ f = debug.FileTypeELF
    /\ debug.closer f = Some (os.mkFile "prog.elf" sample_elf).
Proof.
  assert (elf_files_Open "prog.elf" = inl (os.mkFile "prog.elf" sample_elf))
    as Hopen by reflexivity.
  assert (known_elf_NewFile (os.contents (os.mkFile "prog.elf" sample_elf))
          = inl sample_elf_File) as Helf by (vm_compute; reflexivity).
  exact (proj2 (proj2 (proj2 (proj2
           (NewFile_tries_elf_first known_elf_NewFile elf_files_Open))))
           "prog.elf"%string _ _ Hopen Helf).
Defined.

(** An ELF file without a symbol table: the ELF decoder accepts it, its
    [Symbols()] fails, and [Open] returns the error and no file;
    [NewFile] returns the error with the file. *)
Lemma Open_elf_without_symbols_returns_no_file :
  known_elf_NewFile stripped_elf = inl stripped_elf_File
  /\ debug.Open known_elf_NewFile elf_files_Open "stripped.elf"
     = ([debug.call_elf_NewFile;
         debug.call_Close (os.mkFile "stripped.elf" stripped_elf)],
        Returns (None, Some (errorString "no symbol section")))
  /\ ~ (exists f, (debug.Open known_elf_NewFile elf_files_Open
                     "stripped.elf").2 = Returns (Some f, None))
  /\ debug.NewFile known_elf_NewFile stripped_elf
     = ([debug.call_elf_NewFile],
        Returns (Some (debug.mkFile debug.FileTypeELF [] [] None),
                 Some (errorString "no symbol section"))).
Proof.
  split; [vm_compute; reflexivity|].
  split; [vm_compute; reflexivity|].
  split; [|vm_compute; reflexivity].
  intros [f Hf]. vm_compute in Hf. discriminate.
Qed.

(** C7.  When the ELF decoder returns an error and then the COFF decoder
    returns an error, the dispatcher returns no file and an [ErrorSlice]
    of two errors, in this order: one whose message is ["debug/elf: "]
    followed by the message of the ELF error, and one whose message is
    ["debug/coff: "] followed by the message of the COFF error.
    [Errors] gives back these two. *)
Theorem NewFile_both_decoders_fail
    (elf_NewFile : io.ReaderAt -> elf.File + error)
    (r : io.ReaderAt) (e1 e2 : error) (file : option coff.File) :
  elf_NewFile r = inr e1 ->
  coff.NewFile r = Returns (file, Some e2) ->
  exists es,
    debug.NewFile elf_NewFile r
    = ([debug.call_elf_NewFile; debug.call_coff_NewFile],
       Returns (None, Some es))
    /\ debug.Errors es
       = [errorString ("debug/elf: " +:+ Error e1);
          errorString ("debug/coff: " +:+ Error e2)]
    /\ Error es = "2 errors returned"%string.
Proof.
  intros Helf Hcoff.
  exists (ErrorSlice [Errorf "debug/elf: " e1; Errorf "debug/coff: " e2]).
  split; [|done].
  unfold debug.NewFile. rewrite Helf, Hcoff. by destruct file.
Qed.

(** With the stand-in decoder: a header with an unknown target
    identifier is neither ELF nor COFF. *)
Lemma NewFile_both_decoders_fail_witness :
  exists es,
    debug.NewFile magic_elf_NewFile (header_bytes 0 22 0 0 0x96)
    = ([debug.call_elf_NewFile; debug.call_coff_NewFile],
       Returns (None, Some es))
    /\ debug.Errors es
       = [errorString "debug/elf: bad magic number";
          errorString "debug/coff: invalid target ID"]
    /\ Error es = "2 errors returned"%string.
Proof.
  apply (NewFile_both_decoders_fail magic_elf_NewFile
           (header_bytes 0 22 0 0 0x96)
           (errorString "bad magic number") ErrInvalidTargetID None).
  - vm_compute. reflexivity.
  - vm_compute. reflexivity.
Defined.

(** C9.  When the ELF decoder has failed and the COFF decoder succeeds,
    the dispatcher returns a file of type COFF with one unified symbol
    per COFF symbol, in order: same name, same value, and for size the
    [Size] of the auxiliary entry when the symbol has one, zero when it
    has none. *)
Theorem NewFile_coff_symbol_sizes
    (elf_NewFile : io.ReaderAt -> elf.File + error)
    (r : io.ReaderAt) (e : error) (cf : coff.File) :
  elf_NewFile r = inr e ->
  coff.NewFile r = Returns (Some cf, None) ->
  exists f,
    (debug.NewFile elf_NewFile r).2 = Returns (Some f, None)
    /\ debug.Type_ f = debug.FileTypeCOFF
    /\ length (debug.Symbols f) = length (coff.symbols cf)
    /\ forall i s,
        coff.symbols cf !! i = Some s ->
        exists u,
          debug.Symbols f !! i = Some u
          /\ debug.Name u = coff.SymName s
          /\ debug.Value u = coff.Value s
          /\ debug.Size u
             = match coff.AuxEntry s with
               | Some aux => coff.AuxSize aux
               | None => 0%Z
               end.
Proof.
  intros Helf Hcoff.
  pose proof (NewFile_success_in_range r cf Hcoff) as Hrange.
  unfold debug.NewFile. rewrite Helf, Hcoff.
  cbn [coff.Symbols debug.File_zero debug.Type_ debug.Sections debug.Symbols
       debug.closer snd].
  rewrite copy_coff_symbols_all.
  eexists. split; [reflexivity|]. cbn [debug.Type_ debug.Symbols].
  split; [done|]. split; [by rewrite length_fmap|].
  intros i s Hs. exists (unified s).
  split; [by rewrite list_lookup_fmap, Hs|].
  rewrite Forall_forall in Hrange.
  destruct (Hrange s) as [Hv Ha]; [by eapply list_elem_of_lookup_2|].
  unfold unified; cbn [debug.Name debug.Value debug.Size].
  split; [done|]. split; [by apply uint64_small|].
  destruct (coff.AuxEntry s) as [aux|]; [|done].
  apply uint64_small. by apply Ha.
Qed.

(** [sample_file], which the stand-in ELF decoder rejects. *)
Lemma NewFile_coff_symbol_sizes_witness :
  exists f,
    (debug.NewFile magic_elf_NewFile sample_file).2 = Returns (Some f, None)
    /\ debug.Symbols f
       = [debug.mkSymbol "main" 0x1000 64;
          debug.mkSymbol "a_long_symbol_name" 0x2000 0].
Proof.
  assert (exists cf, coff.NewFile sample_file = Returns (Some cf, None))
    as [cf Hcf] by (eexists; vm_compute; reflexivity).
  destruct (NewFile_coff_symbol_sizes magic_elf_NewFile sample_file
              (errorString "bad magic number") cf)
    as (f & Hf & _); [vm_compute; reflexivity | exact Hcf |].
  exists f. split; [exact Hf|].
  revert Hf. vm_compute. intros [= <-]. reflexivity.
Defined.

(** * Further properties of the decoder *)

(** ** What the loops leave alone, and what they fill in *)

Lemma sectionBody_inr r offset i st file f' sr' offset' :
  (0 <= offset)%Z ->
  coff.sectionBody i r st file (mainR r offset) offset = inr (f', sr', offset') ->
  exists name,
    coff.getString st (coff.chars_of (bytes_at r offset 8)) = Returns (name, None)
    /\ f' = coff.set_Sections file
              (<[i := Some (section_at r offset name)]> (coff.Sections file))
    /\ sr' = mainR r (offset + 48)
    /\ offset' = (offset + 48)%Z
    /\ (offset + 48 <= Z.of_nat (length r))%Z.
Proof.
  intros Ho. unfold coff.sectionBody.
  destruct (coff.read_chars (mainR r offset)) as [[sr1 ch] e1] eqn:E1.
  apply read_chars_main_inv in E1; [|done].
  destruct E1 as [(-> & -> & -> & H1) | [-> | ->]]; [|done|done].
  destruct (binary.Read (mainR r (offset + 8)) coff.sectionHeader_fields)
    as [[sr2 hd] e2] eqn:E2.
  apply binary_Read_main_inv in E2; [|lia|cbn; lia].
  change (binary.Size coff.sectionHeader_fields) with 40 in *.
  change (binary.Size coff.chars_fields) with 8 in *.
  destruct E2 as [(-> & -> & -> & H2) | (_ & [-> | ->])]; [|done|done].
  destruct (coff.getString st (coff.chars_of (bytes_at r offset 8)))
    as [[name [e|]]|msg|] eqn:G; try done.
  rewrite !Seek_main by lia.
  intros [= <- <- <-]. exists name.
  split; [done|]. split; [reflexivity|].
  split; [f_equal; lia|]. split; lia.
Qed.

(** The section loop fills the entries [i .. i+n) of [Sections], in the
    order of the records, and touches nothing else of the file.  When it
    leaves with an error, the entries of the records decoded before the
    failure are filled. *)
Lemma readSections_content r st n : forall i file offset,
  (0 <= offset)%Z ->
  i + n ≤ length (coff.Sections file) ->
  let filled f' k :=
    coff.Hdr f' = coff.Hdr file
    /\ coff.OptHdr f' = coff.OptHdr file
    /\ coff.symbols f' = coff.symbols file
    /\ length (coff.Sections f') = length (coff.Sections file)
    /\ (forall j, j < i \/ i + k ≤ j ->
          coff.Sections f' !! j = coff.Sections file !! j)
    /\ (forall j, j < k ->
          exists name,
            coff.getString st
              (coff.chars_of (bytes_at r (offset + 48 * Z.of_nat j) 8))
            = Returns (name, None)
            /\ coff.Sections f' !! (i + j)
               = Some (Some (section_at r (offset + 48 * Z.of_nat j) name))) in
  match coff.readSections n i r st file (mainR r offset) offset with
  | inr (f', _) => filled f' n
  | inl (Returns (Some f', _)) => exists k, k < n /\ filled f' k
  | inl _ => True
  end.
Proof.
  induction n as [|n IH]; intros i file offset Ho Hlen filled; simpl.
  - unfold filled. repeat split; try done. intros j Hj. lia.
  - pose proof (sectionBody_inv r offset i st file Ho) as Hinv.
    destruct (coff.sectionBody i r st file (mainR r offset) offset)
      as [[[[f|] [e|]]|msg|]|[[f1 sr1] offset1]] eqn:Hbody; try done.
    { destruct Hinv as [-> _]. exists 0. split; [lia|].
      unfold filled. repeat split; try done. intros j Hj. lia. }
    apply sectionBody_inr in Hbody; [|done].
    destruct Hbody as (name & Hname & -> & -> & -> & Hfit).
    specialize (IH (S i)
                  (coff.set_Sections file
                     (<[i:=Some (section_at r offset name)]> (coff.Sections file)))
                  (offset + 48)%Z ltac:(lia)).
    cbn [coff.set_Sections coff.Sections coff.Hdr coff.OptHdr coff.symbols] in IH.
    rewrite length_insert in IH. specialize (IH ltac:(lia)).
    assert (forall f' k,
      (coff.Hdr f' = coff.Hdr file
       /\ coff.OptHdr f' = coff.OptHdr file
       /\ coff.symbols f' = coff.symbols file
       /\ length (coff.Sections f') = length (coff.Sections file)
       /\ (forall j, j < S i \/ S i + k ≤ j ->
             coff.Sections f' !! j
             = <[i:=Some (section_at r offset name)]> (coff.Sections file) !! j)
       /\ (forall j, j < k ->
             exists name0,
               coff.getString st
                 (coff.chars_of
                    (bytes_at r (offset + 48 + 48 * Z.of_nat j) 8))
               = Returns (name0, None)
               /\ coff.Sections f' !! (S i + j)
                  = Some (Some (section_at r (offset + 48 + 48 * Z.of_nat j)
                                  name0)))) ->
      filled f' (S k)) as Hstep.
    { intros f' k (Hh & Hopt & Hsym & Hl & Hout & Hin).
      unfold filled. repeat split; try done.
      - intros j Hj. rewrite Hout by lia.
        apply list_lookup_insert_ne. lia.
      - intros [|j] Hj.
        + exists name. rewrite Z.mul_0_r, Z.add_0_r, Nat.add_0_r.
          split; [done|]. rewrite Hout by lia.
          apply list_lookup_insert_eq. lia.
        + destruct (Hin j ltac:(lia)) as (name0 & Hn0 & Hs0).
          exists name0.
          replace (offset + 48 * Z.of_nat (S j))%Z
            with (offset + 48 + 48 * Z.of_nat j)%Z by lia.
          split; [done|]. by rewrite <- Nat.add_succ_comm. }
    destruct (coff.readSections n (S i) r st _ (mainR r (offset + 48))
                (offset + 48)) as [[[[f|] e]|msg|]|[f' sr']]; try done.
    + destruct IH as (k & Hk & IH). exists (S k). split; [lia|].
      by apply Hstep.
    + by apply Hstep.
Qed.

(** The symbol loop appends to [symbols] and touches nothing else of the
    file; every symbol it appends is the symbol of some slot. *)
Lemma readSymbols_frame r (P : coff.Symbol -> Prop) fuel : forall i st file o,
  (0 <= o)%Z ->
  (forall o name, P (symbol_at r o name)) ->
  let kept f' :=
    coff.Hdr f' = coff.Hdr file
    /\ coff.OptHdr f' = coff.OptHdr file
    /\ coff.Sections f' = coff.Sections file
    /\ exists new, coff.symbols f' = coff.symbols file ++ new /\ Forall P new in
  match coff.readSymbols fuel i st file (mainR r o) with
  | inr (f', _) => kept f'
  | inl (Returns (Some f', _)) => kept f'
  | inl _ => True
  end.
Proof.
  intros i st file o Ho HP.
  assert (forall f, (fun f' =>
            coff.Hdr f' = coff.Hdr f /\ coff.OptHdr f' = coff.OptHdr f
            /\ coff.Sections f' = coff.Sections f
            /\ exists new, coff.symbols f' = coff.symbols f ++ new
                           /\ Forall P new) f) as Hrefl.
  { intros f. repeat split. exists []. by rewrite app_nil_r. }
  revert i file o Ho.
  induction fuel as [|fuel IH]; intros i file o Ho kept; simpl.
  - destruct (0 <? i)%Z; [done | apply Hrefl].
  - destruct (0 <? i)%Z; [|apply Hrefl].
    pose proof (symbolBody_inv r o i st file Ho) as Hbody.
    destruct (coff.symbolBody i st file (mainR r o))
      as [[[[f|] [e|]]|msg|]|[[i' f'] sr']]; try done.
    { destruct Hbody as [-> _]. apply Hrefl. }
    destruct Hbody as (name & _ & -> & Hcase).
    assert (exists o', (0 <= o')%Z /\ sr' = mainR r o') as (o' & Ho' & ->).
    { destruct (aux_count r o =? 1)%Z; destruct Hcase as (_ & -> & _);
        eexists; (split; [|reflexivity]); lia. }
    specialize (IH (uint32 (i' - 1))
                  (coff.set_symbols file
                     (coff.symbols file ++ [symbol_at r o name])) o' Ho').
    cbn [coff.set_symbols coff.Hdr coff.OptHdr coff.Sections coff.symbols] in IH.
    assert (forall f',
      (coff.Hdr f' = coff.Hdr file /\ coff.OptHdr f' = coff.OptHdr file
       /\ coff.Sections f' = coff.Sections file
       /\ exists new,
           coff.symbols f' = (coff.symbols file ++ [symbol_at r o name]) ++ new
           /\ Forall P new) -> kept f') as Hstep.
    { intros f' (Hh & Hopt & Hsec & new & Hnew & HPnew).
      unfold kept. repeat split; try done.
      exists (symbol_at r o name :: new). rewrite Hnew, <- app_assoc.
      split; [done|]. constructor; [apply HP | done]. }
    destruct (coff.readSymbols fuel _ st _ (mainR r o'))
      as [[[[f|] e]|msg|]|[f'' sr'']]; try done; by apply Hstep.
Qed.

(** When the symbol loop runs to its end, the symbols it has appended
    are those of consecutive slots: no slot is skipped, and the slot
    after a symbol with aux-count 1 is its auxiliary record, not a
    symbol. *)
Lemma readSymbols_walk r fuel : forall i st file o f' sr',
  (0 <= o)%Z ->
  coff.readSymbols fuel i st file (mainR r o) = inr (f', sr') ->
  exists new,
    coff.symbols f' = coff.symbols file ++ new
    /\ slot_walk r st o new (o + 18 * Z.of_nat (entries_consumed new)).
Proof.
  induction fuel as [|fuel IH]; intros i st file o f' sr' Ho; simpl.
  - destruct (0 <? i)%Z; [done|]. intros [= <- <-].
    exists []. rewrite app_nil_r. split; [done|].
    change (entries_consumed []) with 0. rewrite Z.mul_0_r, Z.add_0_r.
    constructor.
  - destruct (0 <? i)%Z.
    2:{ intros [= <- <-]. exists []. rewrite app_nil_r. split; [done|].
        change (entries_consumed []) with 0. rewrite Z.mul_0_r, Z.add_0_r.
        constructor. }
    pose proof (symbolBody_inv r o i st file Ho) as Hbody.
    destruct (coff.symbolBody i st file (mainR r o))
      as [[[[f|] [e|]]|msg|]|[[i' f1] sr1]]; try done.
    destruct Hbody as (name & Hname & -> & Hcase).
    pose proof (slots_symbol_at r o name) as Hslots.
    assert (sr1 = mainR r (o + 18 * Z.of_nat (slots (symbol_at r o name)))
            /\ (o + 18 * Z.of_nat (slots (symbol_at r o name))
                <= Z.of_nat (length r))%Z) as [-> Hfit].
    { rewrite Hslots.
      destruct (aux_count r o =? 1)%Z; destruct Hcase as (_ & -> & ?);
        (split; [f_equal|]; lia). }
    intros Hloop. apply IH in Hloop; [|lia].
    destruct Hloop as (new & Hnew & Hwalk).
    cbn [coff.set_symbols coff.symbols] in Hnew.
    exists (symbol_at r o name :: new). rewrite Hnew, <- app_assoc.
    split; [done|]. rewrite entries_consumed_cons.
    apply walk_slot; [done|done|].
    replace (o + 18 * Z.of_nat (slots (symbol_at r o name) + entries_consumed new))%Z
      with (o + 18 * Z.of_nat (slots (symbol_at r o name))
            + 18 * Z.of_nat (entries_consumed new))%Z by lia.
    done.
Qed.

(** ** The ways [NewFile] returns a file *)

Lemma NewFile_short_optional_exact r :
  binary.Size coff.FileHeader_fields ≤ length r ->
  coff.IsValidTargetID (header_of r) = true ->
  (Z.of_nat (length r) < headers_end (header_of r))%Z ->
  exists e,
    coff.NewFile r
    = Returns (Some (coff.mkFile (header_of r)
                       (Some (coff.OptionalFileHeader_of [])) [] []),
               Some e)
    /\ truncated_read e
    /\ (0 < coff.OptionalFileHeaderSize (header_of r))%Z.
Proof.
  intros Hlen Hid Hcut. unfold coff.NewFile. rewrite NewSectionReader_main.
  rewrite binary_Read_main_ok by sizes.
  cbn [coff.set_Hdr coff.Hdr]. fold (header_of r). rewrite Hid. cbn [negb].
  unfold headers_end in Hcut.
  destruct (Z.ltb_spec 0 (coff.OptionalFileHeaderSize (header_of r))); [|sizes].
  destruct (binary_Read_main_short r
              (0 + Z.of_nat (binary.Size coff.FileHeader_fields))
              coff.OptionalFileHeader_fields)
    as (s' & e & -> & He); [sizes|sizes|sizes|].
  by exists e.
Qed.

(** The runs of the two loops behind a file that [NewFile] returns, once
    both headers are read. *)
Lemma NewFile_returns_cases r f err :
  coff.NewFile r = Returns (Some f, err) ->
  (length r < binary.Size coff.FileHeader_fields /\ f = coff.File_zero)
  \/ (binary.Size coff.FileHeader_fields ≤ length r
      /\ coff.IsValidTargetID (header_of r) = true
      /\ (Z.of_nat (length r) < headers_end (header_of r))%Z
      /\ f = coff.mkFile (header_of r) (Some (coff.OptionalFileHeader_of [])) [] [])
  \/ (binary.Size coff.FileHeader_fields ≤ length r
      /\ coff.IsValidTargetID (header_of r) = true
      /\ (headers_end (header_of r) <= Z.of_nat (length r))%Z
      /\ let sections :=
           coff.readSections (Z.to_nat (coff.NumSections (header_of r))) 0 r
             (string_table r) (decoded_headers r)
             (mainR r (headers_end (header_of r))) (headers_end (header_of r)) in
         (sections = inl (Returns (Some f, err)) /\ err <> None)
         \/ exists f1 sr1,
              sections = inr (f1, sr1)
              /\ let symbols :=
                   coff.readSymbols (S (length r))
                     (coff.NumSymbolTableEntries (header_of r)) (string_table r)
                     (coff.set_symbols f1 [])
                     (mainR r (coff.SymbolTableStartAddress (header_of r))) in
                 (symbols = inl (Returns (Some f, err)) /\ err <> None)
                 \/ (exists sr2, symbols = inr (f, sr2) /\ err = None)).
Proof.
  intros Hret.
  destruct (le_lt_dec (binary.Size coff.FileHeader_fields) (length r)) as [H|H].
  2:{ left. destruct (NewFile_short_header r H) as (e & He & _).
      rewrite He in Hret. by injection Hret as <- _. }
  right.
  destruct (coff.IsValidTargetID (header_of r)) eqn:Hid.
  2:{ rewrite NewFile_invalid_id in Hret by done. done. }
  destruct (header_of_ranges r) as (Hns & Hss & Hn & Hopt & _).
  pose proof (headers_end_range (header_of r)) as Hhe.
  destruct (Z.le_gt_cases (headers_end (header_of r)) (Z.of_nat (length r)))
    as [Hfit|Hcut].
  2:{ left. destruct (NewFile_short_optional_exact r H Hid Hcut) as (e & He & _).
      rewrite He in Hret. by injection Hret as <- _. }
  right. split; [done|]. split; [done|]. split; [done|].
  rewrite NewFile_body in Hret by done.
  pose proof (readSections_inv r (string_table r)
                (Z.to_nat (coff.NumSections (header_of r))) 0
                (decoded_headers r) (headers_end (header_of r)) ltac:(lia))
    as Hsec.
  cbn zeta.
  destruct (coff.readSections _ 0 r (string_table r) (decoded_headers r) _ _)
    as [[[[f0|] [e|]]|msg|]|[f1 sr1]]; try done.
  { left. injection Hret as <- <-. done. }
  right. exists f1, sr1. split; [done|].
  destruct Hsec as (Hh & _ & _ & [o' ->] & _).
  cbn [decoded_headers coff.Hdr] in Hh.
  rewrite Hh, Seek_main in Hret by lia.
  pose proof (readSymbols_inv r (S (length r))
                (coff.NumSymbolTableEntries (header_of r)) (string_table r)
                (coff.set_symbols f1 [])
                (coff.SymbolTableStartAddress (header_of r))
                ltac:(lia) Hn) as Hsym.
  destruct (coff.readSymbols _ _ (string_table r) (coff.set_symbols f1 []) _)
    as [[[[f0|] [e|]]|msg|]|[f2 sr2]]; try done.
  - left. injection Hret as <- <-. done.
  - right. injection Hret as <- <-. by exists sr2.
Qed.

(** ** Sections of a decoded file *)

Lemma NewFile_success_sections (r : list byte) (f : coff.File) :
  coff.NewFile r = Returns (Some f, None) ->
  coff.Hdr f = header_of r
  /\ length (coff.Sections f) = Z.to_nat (coff.NumSections (header_of r))
  /\ forall j,
      j < length (coff.Sections f) ->
      exists name,
        coff.getString (string_table r) (section_name r j)
        = Returns (name, None)
        /\ coff.Sections f !! j
           = Some (Some (section_at r
                           (headers_end (header_of r)
                            + section_record_size * Z.of_nat j) name)).
Proof.
  intros Hret.
  destruct (NewFile_returns_cases r f None Hret)
    as [[H ->] | [(Hlen & Hid & Hcut & _) | (Hlen & Hid & Hfit & Hloops)]].
  { destruct (NewFile_short_header r H) as (e & He & _). congruence. }
  { destruct (NewFile_short_optional_exact r Hlen Hid Hcut) as (e & He & _).
    congruence. }
  pose proof (headers_end_range (header_of r)) as Hhe.
  cbn zeta in Hloops.
  destruct Hloops as [[_ ?] | (f1 & sr1 & Hsec & Hsym)]; [done|].
  destruct Hsym as [[_ ?] | (sr2 & Hsym & _)]; [done|].
  pose proof (readSections_content r (string_table r)
                (Z.to_nat (coff.NumSections (header_of r))) 0
                (decoded_headers r) (headers_end (header_of r)) ltac:(lia))
    as Hc.
  cbn [decoded_headers coff.Sections] in Hc. rewrite length_replicate in Hc.
  specialize (Hc ltac:(lia)). cbn zeta in Hc. rewrite Hsec in Hc.
  destruct Hc as (Hh & _ & _ & Hl & _ & Hin).
  rewrite ?length_replicate in Hl.
  pose proof (readSymbols_frame r (fun _ => True) (S (length r))
                (coff.NumSymbolTableEntries (header_of r)) (string_table r)
                (coff.set_symbols f1 [])
                (coff.SymbolTableStartAddress (header_of r))) as Hk.
  destruct (header_of_ranges r) as (_ & Hss & _).
  specialize (Hk ltac:(lia) ltac:(done)). cbn zeta in Hk. rewrite Hsym in Hk.
  destruct Hk as (Hh2 & _ & Hs2 & _).
  cbn [coff.set_symbols coff.Hdr coff.Sections] in Hh2, Hs2.
  rewrite Hh2, Hs2, Hl. split; [done|]. split; [done|].
  intros j Hj. destruct (Hin j Hj) as (name & Hname & Hs).
  exists name. unfold section_name. change section_record_size with 48%Z.
  split; [done|]. done.
Qed.

(** X1.  After a successful decode the file has as many sections as the
    header declares, none of them nil, in the order of the records: entry
    [j] is the section of the record at 48 bytes times [j] after the
    headers, under the name its name field resolves to. *)
Theorem NewFile_sections_in_file_order (r : list byte) (f : coff.File) :
  coff.NewFile r = Returns (Some f, None) ->
  coff.Hdr f = header_of r
  /\ length (coff.Sections f) = Z.to_nat (coff.NumSections (header_of r))
  /\ forall j,
      j < length (coff.Sections f) ->
      exists name,
        coff.getString (string_table r) (section_name r j)
        = Returns (name, None)
        /\ coff.Sections f !! j
           = Some (Some (section_at r
                           (headers_end (header_of r)
                            + section_record_size * Z.of_nat j) name)).
Proof. apply NewFile_success_sections. Qed.

(** The single section of [sample_file]. *)
Lemma NewFile_sections_in_file_order_witness :
  exists f,
    coff.NewFile sample_file = Returns (Some f, None)
    /\ length (coff.Sections f) = 1.
Proof.
  assert (exists f, coff.NewFile sample_file = Returns (Some f, None))
    as [f Hf] by (eexists; vm_compute; reflexivity).
  exists f. split; [exact Hf|].
  rewrite (proj1 (proj2 (NewFile_sections_in_file_order sample_file f Hf))).
  vm_compute. reflexivity.
Defined.



(** ** Symbols of a decoded file *)

(** X3.  After a successful decode the symbols are those of consecutive
    slots from [SymbolTableStartAddress] on, in order: each symbol is
    followed by the slot after it, or after its auxiliary record when its
    aux-count is 1, so that a slot read as an auxiliary record is never
    listed as a symbol. *)
Theorem NewFile_symbols_walk_slots (r : list byte) (f : coff.File) :
  coff.NewFile r = Returns (Some f, None) ->
  slot_walk r (string_table r)
    (coff.SymbolTableStartAddress (header_of r))
    (coff.symbols f)
    (coff.SymbolTableStartAddress (header_of r)
     + 18 * Z.of_nat (entries_consumed (coff.symbols f))).
Proof.
  intros Hret.
  destruct (NewFile_returns_cases r f None Hret)
    as [[H ->] | [(Hlen & Hid & Hcut & _) | (Hlen & Hid & Hfit & Hloops)]].
  { destruct (NewFile_short_header r H) as (e & He & _). congruence. }
  { destruct (NewFile_short_optional_exact r Hlen Hid Hcut) as (e & He & _).
    congruence. }
  cbn zeta in Hloops.
  destruct Hloops as [[_ ?] | (f1 & sr1 & Hsec & Hsym)]; [done|].
  destruct Hsym as [[_ ?] | (sr2 & Hsym & _)]; [done|].
  destruct (header_of_ranges r) as (_ & Hss & _).
  apply readSymbols_walk in Hsym; [|lia].
  destruct Hsym as (new & Hnew & Hwalk).
  cbn [coff.set_symbols coff.symbols app] in Hnew. by rewrite Hnew.
Qed.

Lemma NewFile_symbols_walk_slots_witness :
  exists f l,
    coff.NewFile sample_file = Returns (Some f, None)
    /\ slot_walk sample_file (string_table sample_file) 70 l (70 + 18 * 3).
Proof.
  assert (exists f, coff.NewFile sample_file = Returns (Some f, None))
    as [f Hf] by (eexists; vm_compute; reflexivity).
  exists f, (coff.symbols f). split; [exact Hf|].
  pose proof (NewFile_symbols_walk_slots sample_file f Hf) as Hw.
  revert Hf Hw. vm_compute. intros [= <-]. vm_compute. exact (fun H => H).
Defined.

(** X4.  In every file [NewFile] returns, also with an error, a symbol
    has an auxiliary entry exactly when its aux-count is 1. *)
Theorem NewFile_aux_entry_iff_count_one
    (r : list byte) (f : coff.File) (err : option error) (s : coff.Symbol) :
  coff.NewFile r = Returns (Some f, err) ->
  s ∈ coff.symbols f ->
  (is_Some (coff.AuxEntry s) <-> coff.NumAuxEntries s = 1%Z).
Proof.
  intros Hret Hs.
  set (P := fun s : coff.Symbol =>
              is_Some (coff.AuxEntry s) <-> coff.NumAuxEntries s = 1%Z).
  assert (forall o name, P (symbol_at r o name)) as HP.
  { intros o name. unfold P, symbol_at; cbn [coff.AuxEntry coff.NumAuxEntries].
    change (nth 3 (binary.decode coff.symbol_fields
                     (bytes_at r (o + 8) (binary.Size coff.symbol_fields))) 0%Z)
      with (aux_count r o).
    destruct (Z.eqb_spec (aux_count r o) 1) as [->|Hne].
    - split; [done | by eexists].
    - split; [by intros [? ?] | done]. }
  assert (Forall P (coff.symbols f)) as Hall.
  { destruct (NewFile_returns_cases r f _ Hret)
      as [[H ->] | [(_ & _ & _ & ->) | (Hlen & Hid & Hfit & Hloops)]];
      [constructor | constructor |].
    cbn zeta in Hloops.
    destruct (header_of_ranges r) as (_ & Hss & _).
    pose proof (headers_end_range (header_of r)) as Hhe.
    pose proof (readSections_content r (string_table r)
                  (Z.to_nat (coff.NumSections (header_of r))) 0
                  (decoded_headers r) (headers_end (header_of r)) ltac:(lia))
      as Hc.
    cbn [decoded_headers coff.Sections coff.symbols] in Hc.
    rewrite length_replicate in Hc. specialize (Hc ltac:(lia)). cbn zeta in Hc.
    destruct Hloops as [[Hsec _] | (f1 & sr1 & Hsec & Hsym)].
    - rewrite Hsec in Hc. destruct Hc as (k & _ & _ & _ & -> & _). constructor.
    - rewrite Hsec in Hc. destruct Hc as (_ & _ & Hsym1 & _).
      pose proof (readSymbols_frame r P (S (length r))
                    (coff.NumSymbolTableEntries (header_of r)) (string_table r)
                    (coff.set_symbols f1 [])
                    (coff.SymbolTableStartAddress (header_of r))
                    ltac:(lia) HP) as Hk.
      cbn zeta in Hk.
      destruct Hsym as [[Hsym _] | (sr2 & Hsym & _)]; rewrite Hsym in Hk;
        destruct Hk as (_ & _ & _ & new & -> & Hnew); done. }
  rewrite Forall_forall in Hall. by apply Hall.
Qed.

Lemma NewFile_aux_entry_iff_count_one_witness :
  exists f s,
    coff.NewFile overrun_file = Returns (Some f, Some EOF)
    /\ s ∈ coff.symbols f
    /\ (is_Some (coff.AuxEntry s) <-> coff.NumAuxEntries s = 1%Z).
Proof.
  assert (exists f, coff.NewFile overrun_file = Returns (Some f, Some EOF))
    as [f Hf] by (eexists; vm_compute; reflexivity).
  assert (exists s, s ∈ coff.symbols f) as [s Hs].
  { revert Hf. vm_compute. intros [= <-]. eexists. apply elem_of_cons. left. reflexivity. }
  exists f, s. split; [exact Hf|]. split; [exact Hs|].
  exact (NewFile_aux_entry_iff_count_one overrun_file f _ s Hf Hs).
Defined.

(** X5.  In every file [NewFile] returns, the optional header is nil
    exactly when the header's [OptionalFileHeaderSize] is 0.  After a
    successful decode with a positive size, whatever its value, it holds
    the 28 bytes that follow the file header. *)
Theorem NewFile_optional_header
    (r : list byte) (f : coff.File) (err : option error) :
  coff.NewFile r = Returns (Some f, err) ->
  (coff.OptHdr f = None <-> coff.OptionalFileHeaderSize (coff.Hdr f) = 0%Z)
  /\ (err = None ->
      forall o, coff.OptHdr f = Some o ->
        o = coff.OptionalFileHeader_of
              (binary.decode coff.OptionalFileHeader_fields
                 (bytes_at r 22 28))).
Proof.
  intros Hret.
  destruct (NewFile_returns_cases r f _ Hret)
    as [[H ->] | [(Hlen & Hid & Hcut & ->) | (Hlen & Hid & Hfit & Hloops)]].
  { split; [done|]. intros _ o. done. }
  { destruct (NewFile_short_optional_exact r Hlen Hid Hcut) as (e & He & _ & Hpos).
    split; [cbn [coff.OptHdr coff.Hdr]; split; [done | lia]|].
    intros ->. congruence. }
  assert (coff.Hdr f = header_of r /\ coff.OptHdr f = optional_header_of r)
    as [Hh Ho].
  { cbn zeta in Hloops.
    destruct (header_of_ranges r) as (_ & Hss & _).
    pose proof (headers_end_range (header_of r)) as Hhe.
    pose proof (readSections_content r (string_table r)
                  (Z.to_nat (coff.NumSections (header_of r))) 0
                  (decoded_headers r) (headers_end (header_of r)) ltac:(lia))
      as Hc.
    cbn [decoded_headers coff.Sections coff.symbols coff.Hdr coff.OptHdr] in Hc.
    rewrite length_replicate in Hc. specialize (Hc ltac:(lia)). cbn zeta in Hc.
    destruct Hloops as [[Hsec _] | (f1 & sr1 & Hsec & Hsym)].
    - rewrite Hsec in Hc. by destruct Hc as (k & _ & -> & -> & _).
    - rewrite Hsec in Hc. destruct Hc as (Hh1 & Ho1 & _).
      pose proof (readSymbols_frame r (fun _ => True) (S (length r))
                    (coff.NumSymbolTableEntries (header_of r)) (string_table r)
                    (coff.set_symbols f1 [])
                    (coff.SymbolTableStartAddress (header_of r))
                    ltac:(lia) ltac:(done)) as Hk.
      cbn zeta in Hk.
      destruct Hsym as [[Hsym _] | (sr2 & Hsym & _)]; rewrite Hsym in Hk;
        destruct Hk as (-> & -> & _); done. }
  rewrite Hh, Ho. unfold optional_header_of.
  destruct (header_of_ranges r) as (_ & _ & _ & Hopt & _).
  destruct (Z.ltb_spec 0 (coff.OptionalFileHeaderSize (header_of r))).
  - split; [split; [done | lia]|]. intros _ o [= <-]. reflexivity.
  - split; [split; [lia | done]|]. intros _ o. done.
Qed.

Lemma NewFile_optional_header_witness :
  exists f,
    coff.NewFile sample_file = Returns (Some f, None)
    /\ (coff.OptHdr f = None
        <-> coff.OptionalFileHeaderSize (coff.Hdr f) = 0%Z).
Proof.
  assert (exists f, coff.NewFile sample_file = Returns (Some f, None))
    as [f Hf] by (eexists; vm_compute; reflexivity).
  exists f. split; [exact Hf|].
  exact (proj1 (NewFile_optional_header sample_file f None Hf)).
Defined.

(** The sample file: a successful decode of a small source. *)
Lemma NewFile_success_entries_witness :
  exists f,
    coff.NewFile sample_file = Returns (Some f, None)
    /\ Z.of_nat (entries_consumed (coff.symbols f))
       = coff.NumSymbolTableEntries (coff.Hdr f).
Proof.
  assert (exists f, coff.NewFile sample_file = Returns (Some f, None))
    as [f Hf] by (eexists; vm_compute; reflexivity).
  exists f. split; [exact Hf|].
  apply (NewFile_success_entries sample_file f); [|exact Hf].
  vm_compute. reflexivity.
Defined.

(** The symbol table of the sample file, at offset 70. *)
Lemma readSymbols_three_entries_witness :
  coff.readSymbols 2 3 (string_table sample_file) coff.File_zero
    (mainR sample_file 70)
  = inr (coff.set_symbols coff.File_zero
           (coff.symbols coff.File_zero
              ++ [symbol_at sample_file 70 "main";
                  symbol_at sample_file (70 + 36) "a_long_symbol_name"]),
         mainR sample_file (70 + 54)).
Proof.
  apply (readSymbols_three_entries sample_file 70 (string_table sample_file)
           coff.File_zero 0 "main" "a_long_symbol_name").
  - lia.
  - vm_compute. discriminate.
  - vm_compute. discriminate.
  - vm_compute. reflexivity.
  - vm_compute. discriminate.
  - vm_compute. reflexivity.
  - vm_compute. reflexivity.
Defined.

(** ** Names *)

Lemma ReadBytes_ok_inv l d bs :
  ReadBytes l d = (bs, None) ->
  exists s rest, l = s ++ d :: rest /\ (d ∉ s) /\ bs = s ++ [d].
Proof.
  revert bs. induction l as [|x l IH]; intros bs; simpl; [done|].
  destruct (Byte.eqb x d) eqn:E.
  - apply byte_eqb_spec in E as ->. intros [= <-].
    exists [], l. split; [done|]. split; [apply not_elem_of_nil | done].
  - destruct (ReadBytes l d) as [bs' e'] eqn:E'. intros [= <- ->].
    destruct (IH _ eq_refl) as (s & rest & -> & Hs & ->).
    exists (x :: s), rest. split; [done|]. split; [|done].
    apply not_elem_of_cons. split; [|done].
    apply byte_eqb_neq in E. congruence.
Qed.

Lemma chars_slice_chars_of l :
  length l = 8 -> coff.chars_slice (coff.chars_of l) = l.
Proof.
  intros H. do 8 (destruct l as [|? l]; [done|]). by destruct l.
Qed.

Lemma trimRightByte_app_replicate s c k :
  last s <> Some c -> trimRightByte (s ++ replicate k c) c = s.
Proof.
  induction s as [|b s IH]; intros Hlast.
  - simpl. induction k as [|k IHk]; [done|].
    simpl. rewrite IHk. by rewrite (Byte.byte_dec_lb eq_refl).
  - simpl. destruct s as [|b' s].
    + simpl in *. clear IH.
      assert (trimRightByte (replicate k c) c = []) as ->.
      { induction k as [|k IHk]; [done|].
        simpl. rewrite IHk. by rewrite (Byte.byte_dec_lb eq_refl). }
      assert (Byte.eqb b c = false) as ->; [|done].
      apply byte_eqb_neq. congruence.
    + rewrite last_cons_cons in Hlast. by rewrite IH.
Qed.

Lemma uint8_byte_of_Z z : uint8 (byte_of_Z z) = (z mod 256)%Z.
Proof.
  unfold uint8, byte_of_Z.
  pose proof (Z.mod_pos_bound z 256 ltac:(lia)) as Hm.
  destruct (Byte.of_N (Z.to_N (z mod 256))) as [b|] eqn:E.
  - apply Byte.to_of_N in E. rewrite E. lia.
  - apply Byte.of_N_None_iff in E. lia.
Qed.

Lemma name_offset_table_name k :
  (0 <= k < 2 ^ 32)%Z ->
  coff.is_indirect (coff.chars_of (table_name k)) = true
  /\ coff.name_offset (coff.chars_of (table_name k)) = k.
Proof.
  intros Hk. split; [reflexivity|].
  rewrite name_offset_sum.
  unfold table_name, le32, coff.chars_of;
    cbn [app nth coff.c4 coff.c5 coff.c6 coff.c7].
  rewrite !uint8_byte_of_Z, !Z.shiftr_div_pow2 by lia.
  change (2 ^ 8)%Z with 256%Z. change (2 ^ 16)%Z with 65536%Z.
  change (2 ^ 24)%Z with 16777216%Z. change (2 ^ 32)%Z with 4294967296%Z in Hk.
  Z.div_mod_to_equations. lia.
Qed.

(** X6.  What a resolved name looks like.  A name taken from the string
    table holds no NUL byte.  A name held in the field has at most 8
    bytes and does not end in NUL, and resolves to the same name
    whatever the string table is. *)
Theorem getString_name_shape
    (stringTable : list byte) (name : coff.chars8) (s : string) :
  coff.getString stringTable name = Returns (s, None) ->
  (coff.is_indirect name = true -> NUL ∉ list_byte_of_string s)
  /\ (coff.is_indirect name = false ->
      length (list_byte_of_string s) ≤ 8
      /\ last (list_byte_of_string s) <> Some NUL
      /\ forall stringTable',
          coff.getString stringTable' name = Returns (s, None)).
Proof.
  unfold coff.getString. destruct (coff.is_indirect name).
  - destruct (_ <? _)%Z; [done|].
    destruct (ReadBytes _ NUL) as [bs [e|]] eqn:E; [done|].
    intros [= <-]. split; [|done]. intros _.
    apply ReadBytes_ok_inv in E as (t & rest & _ & Ht & ->).
    rewrite list_byte_of_string_of_list_byte, length_app. simpl.
    replace (length t + 1 - 1) with (length t) by lia.
    by rewrite take_app_length.
  - intros [= <-]. split; [done|]. intros _.
    unfold TrimRight. rewrite !list_byte_of_string_of_list_byte.
    destruct (trimRightByte_spec (coff.chars_slice name) NUL) as (k & Hk & Hl).
    split; [|done].
    assert (length (coff.chars_slice name) = 8) as H8 by done.
    rewrite Hk, length_app in H8. lia.
Qed.

Lemma getString_name_shape_witness :
  NUL ∉ list_byte_of_string "main".
Proof.
  assert (coff.getString (le32 9 ++ list_byte_of_string "main" ++ [NUL])
            (coff.chars_of (table_name 4)) = Returns ("main"%string, None))
    as Hget by (vm_compute; reflexivity).
  apply (proj1 (getString_name_shape _ _ _ Hget)).
  vm_compute. reflexivity.
Defined.

(** X7.  A name of at most 8 bytes that does not end in NUL and has a
    non-NUL byte among its first four, stored in a name field padded
    with NUL, resolves to itself, whatever the string table is. *)
Theorem getString_inline_round_trip (stringTable : list byte) (s : string) :
  length (list_byte_of_string s) ≤ 8 ->
  last (list_byte_of_string s) <> Some NUL ->
  (exists i b, i < 4 /\ list_byte_of_string s !! i = Some b /\ b <> NUL) ->
  coff.getString stringTable (coff.chars_of (inline_name s))
  = Returns (s, None).
Proof.
  intros Hlen Hlast (i & b & Hi & Hb & Hne).
  unfold inline_name. set (l := list_byte_of_string s) in *.
  assert (take 8 (l ++ replicate 8 NUL) = l ++ replicate (8 - length l) NUL)
    as Hpad.
  { rewrite take_app_ge by done. by rewrite take_replicate, Nat.min_l by lia. }
  assert (length (take 8 (l ++ replicate 8 NUL)) = 8) as H8.
  { rewrite length_take, length_app, length_replicate. lia. }
  unfold coff.getString.
  assert (coff.is_indirect (coff.chars_of (take 8 (l ++ replicate 8 NUL)))
          = false) as ->.
  { apply not_true_is_false. rewrite is_indirect_spec.
    unfold coff.chars_of; cbn [coff.c0 coff.c1 coff.c2 coff.c3].
    assert (nth i (take 8 (l ++ replicate 8 NUL)) NUL = b) as Hnth.
    { rewrite Hpad. apply nth_lookup_Some. by apply lookup_app_l_Some. }
    intros (H0 & H1 & H2 & H3).
    destruct i as [|[|[|[|i]]]]; [congruence..|lia]. }
  unfold TrimRight. rewrite list_byte_of_string_of_list_byte.
  rewrite chars_slice_chars_of by done.
  rewrite Hpad, trimRightByte_app_replicate by done.
  unfold l. by rewrite string_of_list_byte_of_string.
Qed.

Lemma getString_inline_round_trip_witness :
  coff.getString [] (coff.chars_of (inline_name ".text"))
  = Returns (".text"%string, None).
Proof.
  apply (getString_inline_round_trip [] ".text").
  - vm_compute. lia.
  - vm_compute. discriminate.
  - exists 0, "."%byte. split; [lia|]. split; [reflexivity | discriminate].
Defined.

(** X8.  A name without NUL bytes, stored NUL-terminated in the string
    table at an offset below [2^32], is resolved by the name field that
    holds four zero bytes and then that offset, least significant byte
    first. *)
Theorem getString_table_round_trip (pre s post : list byte) :
  NUL ∉ s ->
  (Z.of_nat (length pre) < 2 ^ 32)%Z ->
  coff.getString (pre ++ s ++ NUL :: post)
    (coff.chars_of (table_name (Z.of_nat (length pre))))
  = Returns (string_of_list_byte s, None).
Proof.
  intros Hs Hpre.
  destruct (name_offset_table_name (Z.of_nat (length pre)) ltac:(lia))
    as [Hi Ho].
  unfold coff.getString. rewrite Hi, Ho.
  destruct (Z.ltb_spec (Z.of_nat (length (pre ++ s ++ NUL :: post)))
              (Z.of_nat (length pre))) as [Hlt|_].
  { rewrite length_app in Hlt. lia. }
  rewrite Nat2Z.id, drop_app_length, ReadBytes_found by done.
  rewrite length_app. simpl.
  replace (length s + 1 - 1) with (length s) by lia.
  by rewrite take_app_length.
Qed.

Lemma getString_table_round_trip_witness :
  coff.getString (le32 9 ++ list_byte_of_string "main" ++ NUL :: [])
    (coff.chars_of (table_name (Z.of_nat (length (le32 9)))))
  = Returns ("main"%string, None).
Proof.
  apply (getString_table_round_trip (le32 9) (list_byte_of_string "main") []).
  - intros H. vm_compute in H.
    repeat (apply elem_of_cons in H as [H|H]; [discriminate|]).
    by apply elem_of_nil in H.
  - vm_compute. reflexivity.
Defined.

(** X9.  A name field of eight zero bytes is not the empty name: it
    refers to offset 0 of the string table.  It resolves to the first
    string of the table, and fails with [io.EOF] when the table holds no
    NUL byte, an empty table included. *)
Theorem getString_zero_field (stringTable : list byte) :
  (NUL ∉ stringTable ->
   coff.getString stringTable coff.chars_zero = Returns (""%string, Some EOF))
  /\ (forall s rest,
        stringTable = s ++ NUL :: rest -> NUL ∉ s ->
        coff.getString stringTable coff.chars_zero
        = Returns (string_of_list_byte s, None)).
Proof.
  split.
  - intros Hnul. apply getString_unterminated; [done| |done].
    change (coff.name_offset coff.chars_zero) with 0%Z. lia.
  - intros s rest -> Hs. unfold coff.getString.
    change (coff.is_indirect coff.chars_zero) with true.
    change (coff.name_offset coff.chars_zero) with 0%Z.
    destruct (Z.ltb_spec (Z.of_nat (length (s ++ NUL :: rest))) 0); [lia|].
    change (Z.to_nat 0) with 0. rewrite drop_0, ReadBytes_found by done.
    rewrite length_app. simpl.
    replace (length s + 1 - 1) with (length s) by lia.
    by rewrite take_app_length.
Qed.

Lemma getString_zero_field_witness :
  coff.getString [] coff.chars_zero = Returns (""%string, Some EOF).
Proof.
  apply (proj1 (getString_zero_field [])). apply not_elem_of_nil.
Defined.

(** ** Edge cases of the decoder *)

(** X10.  A source shorter than the 22-byte file header: [NewFile]
    returns the zero file with [io.EOF] when the source is empty and with
    [io.ErrUnexpectedEOF] otherwise. *)
Theorem NewFile_header_read_error (r : list byte) :
  length r < binary.Size coff.FileHeader_fields ->
  coff.NewFile r
  = Returns (Some coff.File_zero,
             Some (match r with [] => EOF | _ => ErrUnexpectedEOF end)).
Proof.
  intros Hlen. unfold coff.NewFile. rewrite NewSectionReader_main.
  unfold binary.Read, io.ReadFull.
  assert (io.avail (mainR r 0) = r) as ->.
  { rewrite avail_take_drop. simpl. rewrite drop_0. apply take_ge. sizes. }
  destruct (decide (binary.Size coff.FileHeader_fields ≤ length r)); [lia|].
  by destruct r.
Qed.

Lemma NewFile_header_read_error_witness :
  coff.NewFile [] = Returns (Some coff.File_zero, Some EOF).
Proof. apply (NewFile_header_read_error []). vm_compute. lia. Defined.

(** X11.  A source that starts with a file header with a known target
    identifier, no optional header, no section and no symbol-table entry
    decodes to a file with that header and nothing else, whatever the
    other header fields and the bytes after the header are. *)
Theorem NewFile_header_only (r : list byte) :
  binary.Size coff.FileHeader_fields ≤ length r ->
  coff.IsValidTargetID (header_of r) = true ->
  coff.OptionalFileHeaderSize (header_of r) = 0%Z ->
  coff.NumSections (header_of r) = 0%Z ->
  coff.NumSymbolTableEntries (header_of r) = 0%Z ->
  coff.NewFile r = Returns (Some (coff.mkFile (header_of r) None [] []), None).
Proof.
  intros Hlen Hid Hopt Hns Hn.
  assert (headers_end (header_of r) = 22%Z) as Hhe
    by (unfold headers_end; rewrite Hopt; reflexivity).
  rewrite NewFile_body by (done || sizes).
  unfold decoded_headers, optional_header_of. rewrite Hns, Hopt.
  change (Z.to_nat 0) with 0.
  cbn [coff.readSections coff.Hdr coff.set_symbols replicate].
  rewrite Hn. reflexivity.
Qed.

Lemma NewFile_header_only_witness :
  coff.NewFile (header_bytes 0 1000 0 0 0xA0 ++ list_byte_of_string "junk")
  = Returns (Some (coff.mkFile
                     (header_of (header_bytes 0 1000 0 0 0xA0
                                 ++ list_byte_of_string "junk"))
                     None [] []), None).
Proof.
  apply (NewFile_header_only
           (header_bytes 0 1000 0 0 0xA0 ++ list_byte_of_string "junk"));
    vm_compute; (reflexivity || lia).
Defined.

(** ** The view of a section *)

(** X12.  [Open] on the section of a record gives a reader from which
    [ReadAll] delivers, without error, the bytes of the source from
    [RawDataAddress] on, [Size] of them, or fewer when the source ends
    before. *)
Theorem Section_Open_reads_window (r : list byte) (o : Z) (name : string) :
  let s := section_at r o name in
  (io.ReadAll (coff.Section_Open s)).1.2
  = bytes_at r (coff.RawDataAddress (coff.Header s))
      (Z.to_nat (coff.Size (coff.Header s)))
  /\ (io.ReadAll (coff.Section_Open s)).2 = None.
Proof.
  intros s. split; [|reflexivity].
  unfold s, section_at, coff.Section_Open;
    cbn [coff.sr coff.Header coff.RawDataAddress coff.Size].
  set (hd := binary.decode coff.sectionHeader_fields _).
  assert (0 <= nth 3 hd 0 < 2 ^ 32)%Z as Hraw
    by apply LittleEndian_Uint32_range.
  assert (0 <= nth 2 hd 0 < 2 ^ 32)%Z as Hsize
    by apply LittleEndian_Uint32_range.
  assert (io.as_ReaderAt (io.NewSectionReader r (nth 3 hd 0%Z) (nth 2 hd 0%Z))
          = bytes_at r (nth 3 hd 0%Z) (Z.to_nat (nth 2 hd 0%Z))) as ->.
  { unfold io.as_ReaderAt, io.NewSectionReader.
    destruct (Z.leb_spec (nth 3 hd 0) (io.maxint64 - nth 2 hd 0))%Z; [|sizes].
    rewrite avail_take_drop. cbn [io.r io.base io.off io.limit].
    unfold bytes_at. do 2 f_equal. lia. }
  rewrite NewSectionReader_main. unfold io.ReadAll. cbn [fst snd].
  rewrite avail_take_drop. cbn [mainR io.r io.off io.limit].
  rewrite drop_0. apply take_ge.
  unfold bytes_at. rewrite length_take. sizes.
Qed.

(** * Further properties of the dispatcher *)

Lemma copy_elf_symbols_spec rest : forall pre acc,
  length acc = length pre ->
  debug.copy_elf_symbols (length rest) (length pre) (pre ++ rest)
    (acc ++ replicate (length rest) debug.Symbol_zero)
  = acc ++ (unified_elf <$> rest).
Proof.
  induction rest as [|s rest IH]; intros pre acc Hlen; [done|].
  cbn [length debug.copy_elf_symbols].
  rewrite lookup_app_r, Nat.sub_diag by done. cbn [lookup list_lookup].
  assert (forall f (l : list debug.Symbol),
            alter f (length pre) (acc ++ l) = acc ++ alter f 0 l) as Halter.
  { intros f l. rewrite <- Hlen, <- (Nat.add_0_r (length acc)).
    apply alter_app_r. }
  cbn [replicate]. rewrite !Halter. cbn [alter list_alter].
  specialize (IH (pre ++ [s]) (acc ++ [unified_elf s])).
  rewrite !length_app, <- !app_assoc in IH. simpl in IH.
  rewrite !Nat.add_1_r in IH. rewrite fmap_cons. apply IH. lia.
Qed.

(** X13.  A file that the dispatcher returns is never of unknown type:
    it is of type ELF exactly when the ELF decoder accepted the source,
    and of type COFF otherwise, in which case it comes without error.
    Its type prints as ["ELF"] or ["TI-COFF"]. *)
Theorem NewFile_file_type
    (elf_NewFile : io.ReaderAt -> elf.File + error)
    (r : io.ReaderAt) (f : debug.File) (err : option error) :
  (debug.NewFile elf_NewFile r).2 = Returns (Some f, err) ->
  debug.Type_ f <> debug.FileTypeUnknown
  /\ (debug.Type_ f = debug.FileTypeELF <-> exists ef, elf_NewFile r = inl ef)
  /\ (debug.Type_ f = debug.FileTypeCOFF -> err = None)
  /\ (debug.FileType_String (debug.Type_ f) = "ELF"%string
      \/ debug.FileType_String (debug.Type_ f) = "TI-COFF"%string).
Proof.
  unfold debug.NewFile. destruct (elf_NewFile r) as [ef|e].
  - destruct (elf.Symbols ef) as [symbols [e|]]; simpl; intros [= <- <-];
      (split; [done|]); (split; [split; [by eexists | done]|]);
      (split; [done | by left]).
  - destruct (coff.NewFile r) as [[[cf|] [e'|]]|msg|]; simpl; try done.
    intros [= <- <-]. split; [done|].
    split; [split; [done | by intros [? ?]]|]. split; [done | by right].
Qed.

Lemma NewFile_file_type_witness :
  exists f,
    (debug.NewFile magic_elf_NewFile sample_file).2 = Returns (Some f, None)
    /\ debug.Type_ f <> debug.FileTypeUnknown.
Proof.
  assert (exists f, (debug.NewFile magic_elf_NewFile sample_file).2
                    = Returns (Some f, None))
    as [f Hf] by (eexists; vm_compute; reflexivity).
  exists f. split; [exact Hf|].
  exact (proj1 (NewFile_file_type magic_elf_NewFile sample_file f None Hf)).
Defined.

(** X14.  When the ELF decoder accepts the source and the ELF file gives
    its symbols, the dispatcher returns, after the one call to the ELF
    decoder, a file of type ELF whose sections wrap the ELF sections in
    order and whose symbols are the ELF symbols in order, with name,
    value and size copied. *)
Theorem NewFile_elf_sections_and_symbols
    (elf_NewFile : io.ReaderAt -> elf.File + error)
    (r : io.ReaderAt) (ef : elf.File) (symbols : list elf.Symbol) :
  elf_NewFile r = inl ef ->
  elf.Symbols ef = (symbols, None) ->
  debug.NewFile elf_NewFile r
  = ([debug.call_elf_NewFile],
     Returns (Some (debug.mkFile debug.FileTypeELF
                      (debug.elfSection <$> elf.Sections ef)
                      ((fun s => debug.mkSymbol (elf.SymName s) (elf.SymValue s)
                                   (elf.SymSize s)) <$> symbols)
                      None), None)).
Proof.
  intros Helf Hsym. unfold debug.NewFile. rewrite Helf, Hsym.
  rewrite length_replicate.
  pose proof (copy_elf_symbols_spec symbols [] [] eq_refl) as Hcopy.
  simpl in Hcopy. rewrite Hcopy. reflexivity.
Qed.

(** With the stand-in decoder on [sample_elf]: five sections and two
    symbols. *)
Lemma NewFile_elf_sections_and_symbols_witness :
  debug.NewFile known_elf_NewFile sample_elf
  = ([debug.call_elf_NewFile],
     Returns
       (Some (debug.mkFile debug.FileTypeELF
                [debug.elfSection (elf.mkSection "" 0 0);
                 debug.elfSection (elf.mkSection ".text" 0x4400 4);
                 debug.elfSection (elf.mkSection ".symtab" 0 48);
                 debug.elfSection (elf.mkSection ".strtab" 0 11);
                 debug.elfSection (elf.mkSection ".shstrtab" 0 33)]
                [debug.mkSymbol "main" 0x4400 2;
                 debug.mkSymbol "done" 0x4402 2]
                None), None)).
Proof.
  apply (NewFile_elf_sections_and_symbols known_elf_NewFile sample_elf
           sample_elf_File
           [elf.mkSymbol "main" 0x4400 2; elf.mkSymbol "done" 0x4402 2]).
  - vm_compute. reflexivity.
  - reflexivity.
Defined.

(** X15.  On the COFF path the unified sections are the COFF sections in
    order, none of them nil, and their methods do not panic: [Name]
    gives the resolved section name, [Address] the physical address (not
    the virtual one) and [Size] the size of the section header. *)
Theorem NewFile_coff_section_views
    (elf_NewFile : io.ReaderAt -> elf.File + error)
    (r : io.ReaderAt) (e : error) (cf : coff.File) :
  elf_NewFile r = inr e ->
  coff.NewFile r = Returns (Some cf, None) ->
  exists f,
    (debug.NewFile elf_NewFile r).2 = Returns (Some f, None)
    /\ length (debug.Sections f) = Z.to_nat (coff.NumSections (coff.Hdr cf))
    /\ forall j u,
        debug.Sections f !! j = Some u ->
        exists s,
          coff.Sections cf !! j = Some (Some s)
          /\ debug.Section_Name u = Returns (coff.Name (coff.Header s))
          /\ debug.Section_Address u
             = Returns (coff.PhysicalAddress (coff.Header s))
          /\ debug.Section_Size u = Returns (coff.Size (coff.Header s)).
Proof.
  intros Helf Hcoff.
  destruct (NewFile_success_sections r cf Hcoff) as (Hh & Hl & Hin).
  unfold debug.NewFile. rewrite Helf, Hcoff.
  cbn [coff.Symbols debug.File_zero debug.Type_ debug.Sections debug.Symbols
       debug.closer snd].
  eexists. split; [reflexivity|]. cbn [debug.Sections].
  split; [by rewrite length_fmap, Hh|].
  intros j u Hu. rewrite list_lookup_fmap in Hu.
  destruct (coff.Sections cf !! j) as [s0|] eqn:Hj; [|done].
  injection Hu as <-.
  destruct (Hin j) as (name & _ & Hs); [by eapply lookup_lt_Some|].
  rewrite Hs in Hj. injection Hj as <-.
  eexists. split; [reflexivity|].
  unfold section_at;
    cbn [debug.Section_Name debug.Section_Address debug.Section_Size
         coff.Header coff.Name coff.PhysicalAddress coff.Size].
  split; [done|].
  split; f_equal; apply uint64_small, LittleEndian_Uint32_range.
Qed.

Lemma NewFile_coff_section_views_witness :
  exists f,
    (debug.NewFile magic_elf_NewFile sample_file).2 = Returns (Some f, None)
    /\ length (debug.Sections f) = 1.
Proof.
  assert (exists cf, coff.NewFile sample_file = Returns (Some cf, None))
    as [cf Hcf] by (eexists; vm_compute; reflexivity).
  destruct (NewFile_coff_section_views magic_elf_NewFile sample_file
              (errorString "bad magic number") cf)
    as (f & Hf & Hl & _); [vm_compute; reflexivity | exact Hcf |].
  exists f. split; [exact Hf|]. rewrite Hl.
  revert Hcf. vm_compute. intros [= <-]. reflexivity.
Defined.

(** ** Opening and closing *)

(** X16.  [Open] on a path that the operating system opens.  When it
    returns an error it returns no file, and has closed the opened file,
    once, as its last action.  When it returns without error it returns
    a file that owns the opened file and has closed nothing. *)
Theorem Open_closes_exactly_on_failure
    (elf_NewFile : io.ReaderAt -> elf.File + error)
    (os_Open : string -> os.File + error)
    (name : string) (file : os.File)
    (log : list debug.event) (df : option debug.File) (err : option error) :
  os_Open name = inl file ->
  debug.Open elf_NewFile os_Open name = (log, Returns (df, err)) ->
  (err <> None ->
   df = None
   /\ exists log', log = log' ++ [debug.call_Close file]
                   /\ forall x, debug.call_Close x ∉ log')
  /\ (err = None ->
      (exists f, df = Some f /\ debug.closer f = Some file)
      /\ forall x, debug.call_Close x ∉ log).
Proof.
  intros Hopen. unfold debug.Open. rewrite Hopen.
  assert (forall x, debug.call_Close x ∉ (debug.NewFile elf_NewFile
                                             (os.contents file)).1) as Hlog.
  { intros x. unfold debug.NewFile.
    destruct (elf_NewFile (os.contents file)) as [ef|e].
    - destruct (elf.Symbols ef) as [symbols [e|]]; simpl;
        intros H; apply list_elem_of_singleton in H; discriminate.
    - destruct (coff.NewFile (os.contents file)) as [[[cf|] [e'|]]|msg|];
        simpl; intros H;
        repeat (apply elem_of_cons in H as [H|H]; [discriminate|]);
        by apply elem_of_nil in H. }
  destruct (debug.NewFile elf_NewFile (os.contents file))
    as [l [[[f|] [e|]]|msg|]]; simpl in Hlog; try done.
  - intros [= <- <- <-]. split; [|done]. intros _. split; [done|]. by exists l.
  - intros [= <- <- <-]. split; [done|]. intros _.
    split; [by eexists | done].
  - intros [= <- <- <-]. split; [|done]. intros _. split; [done|]. by exists l.
Qed.

Lemma Open_closes_exactly_on_failure_witness :
  exists f,
    debug.Open magic_elf_NewFile two_files_Open "a.obj"
    = ([debug.call_elf_NewFile; debug.call_coff_NewFile], Returns (Some f, None))
    /\ debug.closer f = Some (os.mkFile "a.obj" sample_file).
Proof.
  assert (exists f,
            debug.Open magic_elf_NewFile two_files_Open "a.obj"
            = ([debug.call_elf_NewFile; debug.call_coff_NewFile],
               Returns (Some f, None)))
    as [f Hf] by (eexists; vm_compute; reflexivity).
  exists f. split; [exact Hf|].
  destruct (proj2 (Open_closes_exactly_on_failure magic_elf_NewFile
                     two_files_Open "a.obj" (os.mkFile "a.obj" sample_file)
                     _ _ _ eq_refl Hf) eq_refl)
    as [(f' & Hf' & Hc) _].
  injection Hf' as <-. exact Hc.
Defined.

(** X17.  A path that does not open: [Open] returns the error of the
    operating system and calls no decoder.  A file that the ELF decoder
    accepts but whose [Symbols()] fails: [Open] returns that error and no
    file, closes the file, and does not try the COFF decoder. *)
Theorem Open_failures_before_coff
    (elf_NewFile : io.ReaderAt -> elf.File + error)
    (os_Open : string -> os.File + error) (name : string) :
  (forall e, os_Open name = inr e ->
     debug.Open elf_NewFile os_Open name = ([], Returns (None, Some e)))
  /\ (forall file ef symbols e,
        os_Open name = inl file ->
        elf_NewFile (os.contents file) = inl ef ->
        elf.Symbols ef = (symbols, Some e) ->
        debug.Open elf_NewFile os_Open name
        = ([debug.call_elf_NewFile; debug.call_Close file],
           Returns (None, Some e))).
Proof.
  split.
  - intros e Hopen. unfold debug.Open. by rewrite Hopen.
  - intros file ef symbols e Hopen Helf Hsym.
    unfold debug.Open, debug.NewFile. by rewrite Hopen, Helf, Hsym.
Qed.

Lemma Open_failures_before_coff_witness :
  debug.Open magic_elf_NewFile two_files_Open "missing"
  = ([], Returns (None, Some (errorString "no such file or directory"))).
Proof.
  apply (proj1 (Open_failures_before_coff magic_elf_NewFile two_files_Open
                  "missing")).
  vm_compute. reflexivity.
Defined.

(** X18.  [Close] on a file that [Open] returned closes the opened file,
    once, and returns what closing it returns.  [Close] on a file that
    [NewFile] returned closes nothing and returns nil. *)
Theorem Close_after_Open_and_NewFile
    (elf_NewFile : io.ReaderAt -> elf.File + error)
    (os_Open : string -> os.File + error)
    (os_Close : os.File -> option error) :
  (forall name file log f err,
      os_Open name = inl file ->
      debug.Open elf_NewFile os_Open name = (log, Returns (Some f, err)) ->
      debug.Close os_Close f = ([debug.call_Close file], os_Close file))
  /\ (forall r f err,
        (debug.NewFile elf_NewFile r).2 = Returns (Some f, err) ->
        debug.Close os_Close f = ([], None)).
Proof.
  assert (forall r f err,
            (debug.NewFile elf_NewFile r).2 = Returns (Some f, err) ->
            debug.closer f = None) as Hnew.
  { intros r f err. unfold debug.NewFile.
    destruct (elf_NewFile r) as [ef|e].
    - destruct (elf.Symbols ef) as [symbols [e|]]; simpl; by intros [= <- <-].
    - destruct (coff.NewFile r) as [[[cf|] [e'|]]|msg|]; simpl; try done.
      by intros [= <- <-]. }
  split.
  - intros name file log f err Hopen. unfold debug.Open. rewrite Hopen.
    destruct (debug.NewFile elf_NewFile (os.contents file))
      as [l [[[f0|] [e|]]|msg|]]; try done.
    by intros [= <- <- <-].
  - intros r f err Hret. unfold debug.Close. by rewrite (Hnew r f err Hret).
Qed.

Lemma Close_after_Open_and_NewFile_witness :
  exists f,
    (debug.NewFile magic_elf_NewFile sample_file).2 = Returns (Some f, None)
    /\ debug.Close (fun _ => None) f = ([], None).
Proof.
  assert (exists f, (debug.NewFile magic_elf_NewFile sample_file).2
                    = Returns (Some f, None))
    as [f Hf] by (eexists; vm_compute; reflexivity).
  exists f. split; [exact Hf|].
  exact (proj2 (Close_after_Open_and_NewFile magic_elf_NewFile two_files_Open
                  (fun _ => None)) sample_file f None Hf).
Defined.

(** X19.  [coff.Open] on a path that the operating system opens returns
    what [NewFile] returns on the contents of the file.  On an error
    this includes the file decoded so far, the opened file is closed
    once and nothing owns it; without error nothing is closed and the
    returned file owns the opened file. *)
Theorem coff_Open_returns_what_NewFile_returns
    (os_Open : string -> os.File + error) (name : string) (file : os.File)
    (f : option coff.File) (err : option error) :
  os_Open name = inl file ->
  coff.NewFile (os.contents file) = Returns (f, err) ->
  (err <> None ->
   coff.Open os_Open name = coff.mkOpened [file] (Returns (f, err)) None)
  /\ (err = None ->
      coff.Open os_Open name = coff.mkOpened [] (Returns (f, None)) (Some file)
      /\ f <> None).
Proof.
  intros Hopen Hret.
  assert (err = None -> f <> None) as Hnn.
  { intros -> ->.
    destruct (le_lt_dec (binary.Size coff.FileHeader_fields)
                (length (os.contents file))) as [H|H].
    - destruct (coff.IsValidTargetID (header_of (os.contents file))) eqn:Hid.
      + pose proof (NewFile_valid_inv _ H Hid) as Hinv.
        by rewrite Hret in Hinv.
      + rewrite NewFile_invalid_id in Hret by done. done.
    - destruct (NewFile_short_header _ H) as (e & He & _). congruence. }
  unfold coff.Open. rewrite Hopen, Hret.
  destruct f as [f|], err as [e|]; split; intros H;
    try done; try (by split); by specialize (Hnn eq_refl).
Qed.

Lemma coff_Open_returns_what_NewFile_returns_witness :
  exists f,
    coff.Open two_files_Open "a.out"
    = coff.mkOpened [os.mkFile "a.out" (elf_magic ++ [NUL])]
        (Returns (Some f, Some ErrUnexpectedEOF)) None.
Proof.
  eexists.
  apply (proj1 (coff_Open_returns_what_NewFile_returns two_files_Open "a.out"
                  (os.mkFile "a.out" (elf_magic ++ [NUL])) _
                  (Some ErrUnexpectedEOF) eq_refl
                  ltac:(vm_compute; reflexivity))).
  discriminate.
Defined.

(** ** The earlier revision of the dispatcher *)

(** X20.  Whenever the later [NewFile] returns a file without error, the
    earlier one makes the same calls and returns a file of the same type
    with the same sections.  The earlier one never returns a file
    together with an error: when it fails, both decoders were called and
    the error is the fixed one. *)
Theorem NewFile_revisions_agree
    (elf_NewFile : io.ReaderAt -> elf.File + error) (r : io.ReaderAt) :
  (forall f,
      (debug.NewFile elf_NewFile r).2 = Returns (Some f, None) ->
      debug0.NewFile elf_NewFile r
      = ((debug.NewFile elf_NewFile r).1,
         Returns (Some (debug0.mkFile (debug.Type_ f) (debug.Sections f) None),
                  None)))
  /\ (forall df e,
        (debug0.NewFile elf_NewFile r).2 = Returns (df, Some e) ->
        df = None
        /\ e = errorString "unsupported debug file type"
        /\ (debug0.NewFile elf_NewFile r).1
           = [debug.call_elf_NewFile; debug.call_coff_NewFile]).
Proof.
  unfold debug.NewFile, debug0.NewFile. split.
  - intros f. destruct (elf_NewFile r) as [ef|e].
    + destruct (elf.Symbols ef) as [symbols [e|]]; simpl; [done|].
      by intros [= <-].
    + destruct (coff.NewFile r) as [[[cf|] [e'|]]|msg|]; simpl; try done.
      by intros [= <-].
  - intros df e. destruct (elf_NewFile r) as [ef|e0]; [done|].
    destruct (coff.NewFile r) as [[[cf|] [e'|]]|msg|]; simpl; try done;
      by intros [= <- <-].
Qed.

Lemma NewFile_revisions_agree_witness :
  exists f,
    (debug.NewFile magic_elf_NewFile sample_file).2 = Returns (Some f, None)
    /\ debug0.NewFile magic_elf_NewFile sample_file
       = ([debug.call_elf_NewFile; debug.call_coff_NewFile],
          Returns (Some (debug0.mkFile (debug.Type_ f) (debug.Sections f) None),
                   None)).
Proof.
  assert (exists f, (debug.NewFile magic_elf_NewFile sample_file).2
                    = Returns (Some f, None))
    as [f Hf] by (eexists; vm_compute; reflexivity).
  exists f. split; [exact Hf|].
  exact (proj1 (NewFile_revisions_agree magic_elf_NewFile sample_file) f Hf).
Defined.

(** ** Printing *)

(** X21.  Storage classes print apart: two different [uint8] values
    never print as the same text.  The name printed is ["Unknown"]
    exactly for the values outside the 28 named classes. *)
Theorem StorageClass_String_distinct (a b : Z) :
  (0 <= a < 256)%Z -> (0 <= b < 256)%Z ->
  (coff.StorageClass_String a = coff.StorageClass_String b -> a = b)
  /\ (coff.StorageClass_name a = "Unknown"%string
      <-> a ∉ named_storage_classes).
Proof.
  intros Ha Hb.
  assert (Forall (fun a =>
            bool_decide (coff.StorageClass_name a = "Unknown"%string)
            = negb (bool_decide (a ∈ named_storage_classes))
            /\ Forall (fun b =>
                 coff.StorageClass_String a <> coff.StorageClass_String b
                 \/ a = b) (seqZ 0 256)) (seqZ 0 256)) as Hall.
  { apply (bool_decide_unpack _). vm_compute. exact I. }
  rewrite Forall_forall in Hall.
  destruct (Hall a) as [Hname Hdistinct]; [apply elem_of_seqZ; lia|].
  split.
  - rewrite Forall_forall in Hdistinct.
    destruct (Hdistinct b) as [Hne | ->]; [apply elem_of_seqZ; lia| |done].
    intros Heq. by destruct Hne.
  - rewrite <- (bool_decide_spec (coff.StorageClass_name a = "Unknown"%string)).
    rewrite <- (bool_decide_spec (a ∈ named_storage_classes)).
    rewrite Hname. destruct (bool_decide (a ∈ named_storage_classes)); simpl;
      intuition.
Qed.

Lemma StorageClass_String_distinct_witness :
  coff.StorageClass_name 22 = "Unknown"%string <-> 22%Z ∉ named_storage_classes.
Proof.
  apply (proj2 (StorageClass_String_distinct 22 2 ltac:(lia) ltac:(lia))).
Defined.

(** X22.  A target identifier prints under the name ["Unknown"] exactly
    when [IsValidTargetID] rejects it; the MSP430 identifier prints as
    ["MSP430 (0x00A0)"]. *)
Theorem TargetID_String_unknown_iff_invalid (header : coff.FileHeader) :
  (coff.IsValidTargetID header = true
   <-> String.prefix "Unknown" (coff.TargetID_String (coff.TargetID header))
       = false)
  /\ coff.TargetID_String 0x00A0 = "MSP430 (0x00A0)"%string.
Proof.
  split; [|reflexivity].
  destruct (coff.IsValidTargetID header) eqn:Hid.
  - split; [intros _ | done].
    apply IsValidTargetID_spec in Hid. unfold known_target_ids in Hid.
    repeat (apply elem_of_cons in Hid as [-> | Hid]; [reflexivity|]).
    by apply elem_of_nil in Hid.
  - split; [done|]. unfold coff.IsValidTargetID in Hid.
    unfold coff.TargetID_String.
    destruct (coff.targetIDMap !! coff.TargetID header); [done|].
    cbn. done.
Qed.

(** ** The general form of the panic in name resolution *)

Lemma getString_out_of_range_witness :
  coff.getString [] (coff.chars_of (table_name 1))
  = Panics "slice bounds out of range".
Proof.
  apply (getString_out_of_range [] (coff.chars_of (table_name 1))).
  - reflexivity.
  - vm_compute. reflexivity.
Defined.
